(** * Elevator coordination protocol: the three Cadmium atomic models

  A shallow embedding of the atomic DEVS models of the elevator example
  ([elevatorNum.hpp], [elevatorDoor.hpp], [elevatorMove.hpp]) and the
  properties of their transition functions.

  Conventions.
  - A C++ [int] is a [Z]; the only arithmetic in the models is
    [floorNum += 1] and [floorNum -= 1], written with [wrap_int].
  - A C++ [double] is a binary64 [float]; the models only store the
    literals [0], [0.11], [2.0] and [infinity] in [sigma].
  - The bag of a [Port<T>] is a [list T] in arrival order; a range-for over
    it is a left fold of the loop body over the state.
  - [std::string] is [string]; [append]/[+] is [++]. *)

From Stdlib Require Import ZArith List String Bool Lia.
From Stdlib Require Import Floats.PrimFloat.
From Stdlib Require Import DecimalString.
Import ListNotations.

Set Warnings "-inexact-float".
Open Scope string_scope.
Open Scope Z_scope.

(** ** What the models borrow from C++ and from the simulation kernel *)

Module Cxx.

Definition INT_MIN : Z := - 2 ^ 31.
Definition INT_MAX : Z := 2 ^ 31 - 1.

Definition int_range (z : Z) : Prop := INT_MIN <= z <= INT_MAX.

(** Two's complement wrap-around of a 32-bit [int]. *)
Definition wrap_int (z : Z) : Z := (z + 2 ^ 31) mod 2 ^ 32 - 2 ^ 31.

(** [std::to_string(int)]. *)
Definition to_string (z : Z) : string := NilZero.string_of_int (Z.to_int z).

(** [port->empty()]. *)
Definition empty {A : Type} (bag : list A) : bool :=
  match bag with
  | [] => true
  | _ :: _ => false
  end.

(** [for (auto m : port->getBag()) body], the body acting on the state. *)
Definition for_each {S A : Type} (body : S -> A -> S) (bag : list A) (s : S) : S :=
  fold_left body bag s.

(** The short re-poll quantum, the traversal quantum and the passive time
    advance. *)
Definition short_quantum : float := 0.11%float.
Definition move_quantum : float := 2.0%float.
Definition passive : float := infinity.

End Cxx.

(** ** DoorInterlock: [ElevatorDoor] *)

Module ElevatorDoor.
Import Cxx.

Record ElevatorDoorState : Type := mkState {
  sigma : float;
  floorNum : Z;
  floorNumToMove : Z;
  lightOn : bool;
  currentStatus : string
}.

Definition set_sigma (v : float) (s : ElevatorDoorState) : ElevatorDoorState :=
  mkState v (floorNum s) (floorNumToMove s) (lightOn s) (currentStatus s).
Definition set_floorNum (v : Z) (s : ElevatorDoorState) : ElevatorDoorState :=
  mkState (sigma s) v (floorNumToMove s) (lightOn s) (currentStatus s).
Definition set_floorNumToMove (v : Z) (s : ElevatorDoorState) : ElevatorDoorState :=
  mkState (sigma s) (floorNum s) v (lightOn s) (currentStatus s).
Definition set_lightOn (v : bool) (s : ElevatorDoorState) : ElevatorDoorState :=
  mkState (sigma s) (floorNum s) (floorNumToMove s) v (currentStatus s).

(** [ElevatorDoorState()]. *)
Definition default_state : ElevatorDoorState :=
  mkState 0%float 1 1 false "".

(** The state once the [ElevatorDoor] constructor has run. *)
Definition initial_state : ElevatorDoorState :=
  set_sigma short_quantum default_state.

Definition internalTransition (s : ElevatorDoorState) : ElevatorDoorState :=
  if Bool.eqb (lightOn s) true then set_sigma passive s
  else if Bool.eqb (lightOn s) false then set_sigma short_quantum s
  else s.

(** Body of the loop over [inElevatorNum]. *)
Definition on_inElevatorNum (s : ElevatorDoorState) (x : Z) : ElevatorDoorState :=
  if x =? floorNum s then
    set_sigma short_quantum (set_lightOn false s)
  else
    set_floorNumToMove x (set_lightOn true s).

(** Body of the loop over [inElevatorMove]. *)
Definition on_inElevatorMove (s : ElevatorDoorState) (y : Z) : ElevatorDoorState :=
  set_floorNum y s.

Definition externalTransition (s : ElevatorDoorState) (e : float)
    (inElevatorNum inElevatorMove : list Z) : ElevatorDoorState :=
  let s1 :=
    if negb (empty inElevatorNum) then for_each on_inElevatorNum inElevatorNum s
    else s in
  if negb (empty inElevatorMove) then for_each on_inElevatorMove inElevatorMove s1
  else s1.

(** Messages put on [outDoorStatus] and [outFloorToMove]. *)
Definition output (s : ElevatorDoorState) : bool * Z :=
  (lightOn s, floorNumToMove s).

Definition timeAdvance (s : ElevatorDoorState) : float := sigma s.

(** *** Delivery of same-instant messages

    The kernel files every message of one instant under the port it was
    sent to and then calls [externalTransition] once.  A delivery is the
    list of the instant's messages in the order they reached the model. *)

Inductive message : Type :=
| OnElevatorNum (x : Z)
| OnElevatorMove (y : Z).

Fixpoint bag_inElevatorNum (d : list message) : list Z :=
  match d with
  | [] => []
  | OnElevatorNum x :: d' => x :: bag_inElevatorNum d'
  | OnElevatorMove _ :: d' => bag_inElevatorNum d'
  end.

Fixpoint bag_inElevatorMove (d : list message) : list Z :=
  match d with
  | [] => []
  | OnElevatorNum _ :: d' => bag_inElevatorMove d'
  | OnElevatorMove y :: d' => y :: bag_inElevatorMove d'
  end.

Definition deliver (s : ElevatorDoorState) (e : float) (d : list message)
    : ElevatorDoorState :=
  externalTransition s e (bag_inElevatorNum d) (bag_inElevatorMove d).

(** States the model can be in. *)
Inductive reachable : ElevatorDoorState -> Prop :=
| door_constructed : reachable initial_state
| door_internal s : reachable s -> reachable (internalTransition s)
| door_external s e xs ys : reachable s -> reachable (externalTransition s e xs ys).

(** A run of calls of [externalTransition] in which only [inElevatorMove]
    carries messages. *)
Definition feedback_calls (e : float) (calls : list (list Z)) (s : ElevatorDoorState)
    : ElevatorDoorState :=
  fold_left (fun st ys => externalTransition st e [] ys) calls s.

(** How an open door and its time advance go together. *)
Definition polling_when_open (s : ElevatorDoorState) : Prop :=
  (lightOn s = false -> sigma s = short_quantum) /\
  (sigma s = short_quantum \/ sigma s = passive).

End ElevatorDoor.

(** ** FloorSelector: [ElevatorNum] *)

Module ElevatorNum.
Import Cxx.

Record ElevatorNumState : Type := mkState {
  sigma : float;
  xCoordinate : Z;
  yCoordinate : Z;
  floorNum : Z;
  doorStatus : bool;
  currentStatus : string
}.

Definition set_sigma (v : float) (s : ElevatorNumState) : ElevatorNumState :=
  mkState v (xCoordinate s) (yCoordinate s) (floorNum s) (doorStatus s) (currentStatus s).
Definition set_xCoordinate (v : Z) (s : ElevatorNumState) : ElevatorNumState :=
  mkState (sigma s) v (yCoordinate s) (floorNum s) (doorStatus s) (currentStatus s).
Definition set_yCoordinate (v : Z) (s : ElevatorNumState) : ElevatorNumState :=
  mkState (sigma s) (xCoordinate s) v (floorNum s) (doorStatus s) (currentStatus s).
Definition set_floorNum (v : Z) (s : ElevatorNumState) : ElevatorNumState :=
  mkState (sigma s) (xCoordinate s) (yCoordinate s) v (doorStatus s) (currentStatus s).
Definition set_doorStatus (v : bool) (s : ElevatorNumState) : ElevatorNumState :=
  mkState (sigma s) (xCoordinate s) (yCoordinate s) (floorNum s) v (currentStatus s).

(** [state.currentStatus.append(t)]. *)
Definition append_currentStatus (t : string) (s : ElevatorNumState) : ElevatorNumState :=
  mkState (sigma s) (xCoordinate s) (yCoordinate s) (floorNum s) (doorStatus s)
          (currentStatus s ++ t).

(** [ElevatorNumState()]. *)
Definition default_state : ElevatorNumState :=
  mkState 0%float 0 0 1 false "".

(** The state once the [ElevatorNum] constructor has run. *)
Definition initial_state : ElevatorNumState :=
  set_sigma short_quantum default_state.

Definition internalTransition (s : ElevatorNumState) : ElevatorNumState := s.

(** Body of the loop over [inInput]; [i == 0] promotes the [bool] to [int]. *)
Definition on_inInput (s : ElevatorNumState) (i : bool) : ElevatorNumState :=
  if Bool.eqb (doorStatus s) false then
    if Z.b2z i =? 0 then
      if (xCoordinate s <? 400) && (yCoordinate s >? 600) && negb (floorNum s =? 1) then
        append_currentStatus "1 " (set_floorNum 1 s)
      else if (xCoordinate s >? 600) && (yCoordinate s >? 600) && negb (floorNum s =? 2) then
        append_currentStatus "2 " (set_floorNum 2 s)
      else if (xCoordinate s <? 400) && (yCoordinate s <? 400) && negb (floorNum s =? 3) then
        append_currentStatus "3 " (set_floorNum 3 s)
      else if (xCoordinate s >? 600) && (yCoordinate s <? 400) && negb (floorNum s =? 4) then
        append_currentStatus "4 " (set_floorNum 4 s)
      else s
    else s
  else
    append_currentStatus "DC " s.

Definition on_inX (s : ElevatorNumState) (x : Z) : ElevatorNumState :=
  set_xCoordinate x s.

Definition on_inY (s : ElevatorNumState) (y : Z) : ElevatorNumState :=
  set_yCoordinate y s.

Definition on_inDoorStatus (s : ElevatorNumState) (d : bool) : ElevatorNumState :=
  set_doorStatus d s.

Definition externalTransition (s : ElevatorNumState) (e : float)
    (inInput : list bool) (inX inY : list Z) (inDoorStatus : list bool)
    : ElevatorNumState :=
  let s1 := if negb (empty inInput) then for_each on_inInput inInput s else s in
  let s2 := if negb (empty inX) then for_each on_inX inX s1 else s1 in
  let s3 := if negb (empty inY) then for_each on_inY inY s2 else s2 in
  if negb (empty inDoorStatus) then for_each on_inDoorStatus inDoorStatus s3 else s3.

(** Message put on [out]. *)
Definition output (s : ElevatorNumState) : Z := floorNum s.

Definition timeAdvance (s : ElevatorNumState) : float := sigma s.

(** One call of [externalTransition] in which only [inInput] carries
    messages, and a run of such calls. *)
Definition confirm_call (e : float) (s : ElevatorNumState) (inInput : list bool)
    : ElevatorNumState :=
  externalTransition s e inInput [] [] [].

Definition confirm_calls (e : float) (calls : list (list bool)) (s : ElevatorNumState)
    : ElevatorNumState :=
  fold_left (confirm_call e) calls s.

(** The four bags of one call of [externalTransition], and a run of calls. *)
Record bags : Type := mkBags {
  inInput : list bool;
  inX : list Z;
  inY : list Z;
  inDoorStatus : list bool
}.

Definition external_call (e : float) (s : ElevatorNumState) (b : bags)
    : ElevatorNumState :=
  externalTransition s e (inInput b) (inX b) (inY b) (inDoorStatus b).

Definition external_calls (e : float) (calls : list bags) (s : ElevatorNumState)
    : ElevatorNumState :=
  fold_left (external_call e) calls s.

(** States the model can be in. *)
Inductive reachable : ElevatorNumState -> Prop :=
| selector_constructed : reachable initial_state
| selector_internal s : reachable s -> reachable (internalTransition s)
| selector_external s e pulses xs ys ds :
    reachable s -> reachable (externalTransition s e pulses xs ys ds).

(** [n] times the mark a rejected pulse leaves in [currentStatus]. *)
Fixpoint rejected_marks (n : nat) : string :=
  match n with
  | O => ""
  | S n' => "DC " ++ rejected_marks n'
  end.

End ElevatorNum.

(** ** Mover: [ElevatorMove] *)

Module ElevatorMove.
Import Cxx.

Record ElevatorMoveState : Type := mkState {
  sigma : float;
  floorNum : Z;
  floorToMove : Z;
  buzzerDuty : Z;
  currentStatus : string;
  currentStatuss : string
}.

Definition set_sigma (v : float) (s : ElevatorMoveState) : ElevatorMoveState :=
  mkState v (floorNum s) (floorToMove s) (buzzerDuty s) (currentStatus s) (currentStatuss s).
Definition set_floorNum (v : Z) (s : ElevatorMoveState) : ElevatorMoveState :=
  mkState (sigma s) v (floorToMove s) (buzzerDuty s) (currentStatus s) (currentStatuss s).
Definition set_floorToMove (v : Z) (s : ElevatorMoveState) : ElevatorMoveState :=
  mkState (sigma s) (floorNum s) v (buzzerDuty s) (currentStatus s) (currentStatuss s).
Definition set_buzzerDuty (v : Z) (s : ElevatorMoveState) : ElevatorMoveState :=
  mkState (sigma s) (floorNum s) (floorToMove s) v (currentStatus s) (currentStatuss s).
Definition set_currentStatus (v : string) (s : ElevatorMoveState) : ElevatorMoveState :=
  mkState (sigma s) (floorNum s) (floorToMove s) (buzzerDuty s) v (currentStatuss s).
Definition set_currentStatuss (v : string) (s : ElevatorMoveState) : ElevatorMoveState :=
  mkState (sigma s) (floorNum s) (floorToMove s) (buzzerDuty s) (currentStatus s) v.

(** The status line built from the two floors, as the constructor and both
    moving branches of [internalTransition] build it. *)
Definition floors_line (s : ElevatorMoveState) : string :=
  "BSP_LCD_DrawString(0,5,DFloor:" ++ to_string (floorToMove s)
    ++ " CFloor:" ++ to_string (floorNum s) ++ ",LCD_WHITE)".

(** [ElevatorMoveState()]; [currentStatus] is default-constructed. *)
Definition default_state : ElevatorMoveState :=
  mkState 0%float 1 1 0 "" "".

(** The state once the [ElevatorMove] constructor has run: [sigma] is the
    traversal quantum and [currentStatus] holds the last line it built. *)
Definition initial_state : ElevatorMoveState :=
  let s := set_sigma move_quantum default_state in
  set_currentStatus (floors_line s) s.

Definition internalTransition (s : ElevatorMoveState) : ElevatorMoveState :=
  if floorNum s <? floorToMove s then
    let s1 := set_buzzerDuty 2 s in
    let s2 := set_floorNum (wrap_int (floorNum s1 + 1)) s1 in
    set_currentStatus (floors_line s2) s2
  else if floorNum s >? floorToMove s then
    let s1 := set_buzzerDuty 2 s in
    let s2 := set_floorNum (wrap_int (floorNum s1 - 1)) s1 in
    set_currentStatus (floors_line s2) s2
  else if floorNum s =? floorToMove s then
    set_buzzerDuty 0 s
  else s.

(** Body of the loop over [inMoveFloor]. *)
Definition on_inMoveFloor (s : ElevatorMoveState) (x : Z) : ElevatorMoveState :=
  if negb (floorToMove s =? x) then
    let s1 := set_floorToMove x s in
    set_currentStatuss (currentStatuss s1 ++ "IN:" ++ to_string x) s1
  else s.

Definition externalTransition (s : ElevatorMoveState) (e : float)
    (inMoveFloor : list Z) : ElevatorMoveState :=
  if negb (empty inMoveFloor) then for_each on_inMoveFloor inMoveFloor s else s.

(** Messages put on [outMoveFloor], [outMoveBuzzer] and [lcdStatus]. *)
Definition output (s : ElevatorMoveState) : Z * Z * string :=
  (floorNum s, buzzerDuty s, currentStatus s).

Definition timeAdvance (s : ElevatorMoveState) : float := sigma s.

(** [n] internal transitions in a row, no input in between. *)
Fixpoint internal_run (n : nat) (s : ElevatorMoveState) : ElevatorMoveState :=
  match n with
  | O => s
  | S n' => internal_run n' (internalTransition s)
  end.

(** States the model can be in: the constructed one and whatever the two
    transition functions make of a state it can be in. *)
Inductive reachable : ElevatorMoveState -> Prop :=
| reach_initial : reachable initial_state
| reach_internal s : reachable s -> reachable (internalTransition s)
| reach_external s e bag : reachable s -> reachable (externalTransition s e bag).

(** What the kernel can ask of the model, and a run of such events in the
    order they occur. *)
Inductive event : Type :=
| Internal
| External (e : float) (bag : list Z).

Definition step (s : ElevatorMoveState) (ev : event) : ElevatorMoveState :=
  match ev with
  | Internal => internalTransition s
  | External e bag => externalTransition s e bag
  end.

Definition run (events : list event) (s : ElevatorMoveState) : ElevatorMoveState :=
  fold_left step events s.

End ElevatorMove.

(** ** The coupled model: [elevatorSystem]

    The four couplings between the three atomic models, each as the bag the
    receiving port holds when the sending model has put its [output] on
    the port. *)

Module elevatorSystem.

(** [addCoupling(elevatorNum->out, elevatorDoor->inElevatorNum)]. *)
Definition num_to_door (n : ElevatorNum.ElevatorNumState) : list Z :=
  [ElevatorNum.output n].

(** [addCoupling(elevatorDoor->outDoorStatus, elevatorNum->inDoorStatus)]. *)
Definition door_to_num (d : ElevatorDoor.ElevatorDoorState) : list bool :=
  [fst (ElevatorDoor.output d)].

(** [addCoupling(elevatorDoor->outFloorToMove, elevatorMove->inMoveFloor)]. *)
Definition door_to_move (d : ElevatorDoor.ElevatorDoorState) : list Z :=
  [snd (ElevatorDoor.output d)].

(** [addCoupling(elevatorMove->outMoveFloor, elevatorDoor->inElevatorMove)]. *)
Definition move_to_door (m : ElevatorMove.ElevatorMoveState) : list Z :=
  [fst (fst (ElevatorMove.output m))].

(** The Door receiving, one call each, what the Mover puts on
    [outMoveFloor] at its first [firings] time-driven firings; the output
    of a firing is that of the state before its transition. *)
Definition door_follows_mover (e : float) (firings : nat)
    (m : ElevatorMove.ElevatorMoveState) (d : ElevatorDoor.ElevatorDoorState)
    : ElevatorDoor.ElevatorDoorState :=
  fold_left
    (fun st k =>
       ElevatorDoor.externalTransition st e []
         (move_to_door (ElevatorMove.internal_run k m)))
    (seq 0 firings) d.

End elevatorSystem.

(** ** The specification's vocabulary

    The predicates the specification uses, in its own words, to be compared
    with what the transition functions do. *)

Module SpecWords.

(** Section 4.3: [x<400,y>600 -> 1; x>600,y>600 -> 2; x<400,y<400 -> 3;
    x>600,y<400 -> 4]; anything else falls into no quadrant. *)
Definition quadrant_floor (x y : Z) : option Z :=
  if (x <? 400) && (y >? 600) then Some 1
  else if (x >? 600) && (y >? 600) then Some 2
  else if (x <? 400) && (y <? 400) then Some 3
  else if (x >? 600) && (y <? 400) then Some 4
  else None.

(** When a pulse cannot change the selection: the selector is locked, the
    axes are in no quadrant, or they are in the quadrant of the floor
    already selected. *)
Definition without_effect (s : ElevatorNum.ElevatorNumState) : Prop :=
  ElevatorNum.doorStatus s = true \/
  quadrant_floor (ElevatorNum.xCoordinate s) (ElevatorNum.yCoordinate s) = None \/
  quadrant_floor (ElevatorNum.xCoordinate s) (ElevatorNum.yCoordinate s) =
    Some (ElevatorNum.floorNum s).

(** Section 3: Mover activity is an intensity level, [0] is idle. *)
Definition idle (s : ElevatorMove.ElevatorMoveState) : Prop :=
  ElevatorMove.buzzerDuty s = 0.

(** Section 3: [activity == idle <-> currentFloor == targetFloor]. *)
Definition idle_iff_at_target (s : ElevatorMove.ElevatorMoveState) : Prop :=
  idle s <-> ElevatorMove.floorNum s = ElevatorMove.floorToMove s.

(** Glossary: quiescent is no pending time-driven transition, the next one
    being at infinite time. *)
Definition quiescent (s : ElevatorMove.ElevatorMoveState) : Prop :=
  ElevatorMove.timeAdvance s = Cxx.passive.

(** Section 8, property 5: on a traversal from the floor of [s0] to [B]
    the Mover reaches idle after [|B - A|] time-driven transitions, and is
    moving after each earlier one. *)
Definition idle_after_distance (s0 : ElevatorMove.ElevatorMoveState) (B : Z) : Prop :=
  let s := ElevatorMove.externalTransition s0 0%float [B] in
  let n := Z.to_nat (Z.abs (B - ElevatorMove.floorNum s0)) in
  idle (ElevatorMove.internal_run n s) /\
  forall k, (0 < k < n)%nat -> ~ idle (ElevatorMove.internal_run k s).

End SpecWords.

(** ** Facts about the borrowed C++ pieces *)

Module CxxFacts.
Import Cxx.

Lemma wrap_int_id z : int_range z -> wrap_int z = z.
Proof.
  unfold int_range, INT_MIN, INT_MAX, wrap_int. intros H.
  rewrite Z.mod_small; lia.
Qed.

Lemma for_each_nil {S A : Type} (body : S -> A -> S) s : for_each body [] s = s.
Proof. reflexivity. Qed.

Lemma for_each_cons {S A : Type} (body : S -> A -> S) a bag s :
  for_each body (a :: bag) s = for_each body bag (body s a).
Proof. reflexivity. Qed.

Lemma for_each_snoc {S A : Type} (body : S -> A -> S) bag a s :
  for_each body (bag ++ [a])%list s = body (for_each body bag s) a.
Proof. unfold for_each. rewrite fold_left_app. reflexivity. Qed.

(** A loop whose body keeps a field keeps it. *)
Lemma for_each_keeps {S A B : Type} (body : S -> A -> S) (field : S -> B) :
  (forall s a, field (body s a) = field s) ->
  forall bag s, field (for_each body bag s) = field s.
Proof.
  intros Hbody bag. induction bag as [|a bag IH]; intros s.
  - reflexivity.
  - rewrite for_each_cons, IH. apply Hbody.
Qed.

(** The guard [if (!port->empty())] around a loop adds nothing. *)
Lemma guarded_for_each {S A : Type} (body : S -> A -> S) bag s :
  (if negb (empty bag) then for_each body bag s else s) = for_each body bag s.
Proof. destruct bag; reflexivity. Qed.

(** Floats are told apart by a computed classification. *)
Lemma move_quantum_finite : move_quantum <> passive.
Proof.
  intros H. apply (f_equal is_infinity) in H. vm_compute in H. discriminate.
Qed.

Lemma short_quantum_finite : short_quantum <> passive.
Proof.
  intros H. apply (f_equal is_infinity) in H. vm_compute in H. discriminate.
Qed.

(** A loop whose body stores the message in a field leaves the last
    message there. *)
Lemma for_each_stores {S A : Type} (body : S -> A -> S) (field : S -> A) :
  (forall s a, field (body s a) = a) ->
  forall bag s, field (for_each body bag s) = last bag (field s).
Proof.
  intros Hbody bag. induction bag as [|a bag IH]; intros s.
  - reflexivity.
  - rewrite for_each_cons, IH, Hbody.
    destruct bag as [|b bag]; [reflexivity|].
    clear. revert b. induction bag as [|c bag IH]; intros b; [reflexivity|].
    change (last (c :: bag) a = last (c :: bag) (field s)). apply IH.
Qed.

Lemma last_snoc {A : Type} (l : list A) (a d : A) : last (l ++ [a])%list d = a.
Proof. apply last_last. Qed.

Lemma string_append_assoc (a b c : string) : (a ++ b) ++ c = a ++ (b ++ c).
Proof. induction a as [|ch a IH]; cbn; [reflexivity | now rewrite IH]. Qed.

Lemma string_append_nil_r (a : string) : a ++ "" = a.
Proof. induction a as [|ch a IH]; cbn; [reflexivity | now rewrite IH]. Qed.

Lemma last_cons {A : Type} (a : A) (l : list A) (d : A) :
  last (a :: l) d = last l a.
Proof.
  revert a d. induction l as [|b l IH]; intros a d; [reflexivity|].
  change (last (b :: l) d = last (b :: l) a). now rewrite !IH.
Qed.

End CxxFacts.

(** ** DoorInterlock *)

Module DoorInterlock.
Import Cxx CxxFacts ElevatorDoor.

Lemma door_externalTransition_loops s e xs ys :
  externalTransition s e xs ys =
  for_each on_inElevatorMove ys (for_each on_inElevatorNum xs s).
Proof. unfold externalTransition. now rewrite !guarded_for_each. Qed.

Lemma requests_keep_floorNum xs s :
  floorNum (for_each on_inElevatorNum xs s) = floorNum s.
Proof.
  apply (for_each_keeps on_inElevatorNum floorNum).
  intros s0 x. unfold on_inElevatorNum. destruct (x =? floorNum s0); reflexivity.
Qed.

Lemma feedback_keeps_lightOn ys s :
  lightOn (for_each on_inElevatorMove ys s) = lightOn s.
Proof. now apply (for_each_keeps on_inElevatorMove lightOn). Qed.

Lemma feedback_keeps_floorNumToMove ys s :
  floorNumToMove (for_each on_inElevatorMove ys s) = floorNumToMove s.
Proof. now apply (for_each_keeps on_inElevatorMove floorNumToMove). Qed.

Lemma feedback_keeps_sigma ys s :
  sigma (for_each on_inElevatorMove ys s) = sigma s.
Proof. now apply (for_each_keeps on_inElevatorMove sigma). Qed.

Lemma feedback_keeps_currentStatus ys s :
  currentStatus (for_each on_inElevatorMove ys s) = currentStatus s.
Proof. now apply (for_each_keeps on_inElevatorMove currentStatus). Qed.

Lemma state_eq (s t : ElevatorDoorState) :
  sigma s = sigma t -> floorNum s = floorNum t ->
  floorNumToMove s = floorNumToMove t -> lightOn s = lightOn t ->
  currentStatus s = currentStatus t -> s = t.
Proof. destruct s, t; cbn; intros; subst; reflexivity. Qed.

Lemma bag_inElevatorNum_app d1 d2 :
  bag_inElevatorNum (d1 ++ d2)%list = (bag_inElevatorNum d1 ++ bag_inElevatorNum d2)%list.
Proof.
  induction d1 as [|[x|y] d1 IH]; cbn; [reflexivity| |assumption].
  now rewrite IH.
Qed.

Lemma bag_inElevatorMove_app d1 d2 :
  bag_inElevatorMove (d1 ++ d2)%list = (bag_inElevatorMove d1 ++ bag_inElevatorMove d2)%list.
Proof.
  induction d1 as [|[x|y] d1 IH]; cbn; [reflexivity|assumption|].
  now rewrite IH.
Qed.

(** C1: an external transition that carries the requested floor [x] (with
    any feedback [ys] of the same instant) compares [x] with the floor held
    before the call.  Equal: [lightOn] (door closed) becomes [false],
    [sigma] the short quantum 0.11, [floorNumToMove] stays.  Different:
    [lightOn] becomes [true] and [floorNumToMove] becomes [x].  So the door
    is closed afterwards exactly when the request differed from the current
    floor. *)
Theorem C1_request_against_current_floor
    (s : ElevatorDoorState) (e : float) (x : Z) (ys : list Z) :
  let s' := externalTransition s e [x] ys in
  (x = floorNum s ->
     lightOn s' = false /\ sigma s' = short_quantum /\
     floorNumToMove s' = floorNumToMove s) /\
  (x <> floorNum s ->
     lightOn s' = true /\ floorNumToMove s' = x /\ sigma s' = sigma s) /\
  (lightOn s' = true <-> x <> floorNum s) /\
  currentStatus s' = currentStatus s.
Proof.
  cbn zeta. rewrite door_externalTransition_loops.
  rewrite feedback_keeps_lightOn, feedback_keeps_sigma,
    feedback_keeps_floorNumToMove, feedback_keeps_currentStatus.
  rewrite for_each_cons, for_each_nil. unfold on_inElevatorNum.
  destruct (Z.eqb_spec x (floorNum s)) as [Heq|Hne]; cbn.
  - repeat split; try congruence; try discriminate.
  - repeat split; try congruence.
Qed.

(** C3: an external transition in which only the feedback port
    [inElevatorMove] carries messages stores the received floor (the last
    one, when the bag holds several) in [floorNum] and changes no other
    field: [lightOn], [floorNumToMove], [sigma] and [currentStatus] are as
    before. *)
Theorem C3_feedback_only_sets_current_floor
    (s : ElevatorDoorState) (e : float) (earlier : list Z) (y : Z) :
  externalTransition s e [] [y] = set_floorNum y s /\
  externalTransition s e [] (earlier ++ [y])%list = set_floorNum y s /\
  let s' := externalTransition s e [] (earlier ++ [y])%list in
  floorNum s' = y /\ lightOn s' = lightOn s /\
  floorNumToMove s' = floorNumToMove s /\ sigma s' = sigma s /\
  currentStatus s' = currentStatus s.
Proof.
  assert (H : externalTransition s e [] (earlier ++ [y])%list = set_floorNum y s).
  { rewrite door_externalTransition_loops, for_each_nil, for_each_snoc.
    unfold on_inElevatorMove. apply state_eq; cbn.
    - apply feedback_keeps_sigma.
    - reflexivity.
    - apply feedback_keeps_floorNumToMove.
    - apply feedback_keeps_lightOn.
    - apply feedback_keeps_currentStatus. }
  split; [reflexivity|]. split; [exact H|].
  cbn zeta. rewrite H. cbn. repeat split.
Qed.

(** C4: when a request [x] and a feedback [y] reach the model in one call,
    the request is compared with the floor held before the call, not with
    [y]; the state is that of the request branch with [floorNum] then set
    to [y], whichever of the two messages was delivered first.  In any
    delivery, swapping two neighbouring messages of different ports leaves
    the resulting state as it is. *)
Theorem C4_request_uses_floor_before_feedback
    (s : ElevatorDoorState) (e : float) (x y : Z) (before after : list message) :
  let s' := deliver s e [OnElevatorNum x; OnElevatorMove y] in
  s' = deliver s e [OnElevatorMove y; OnElevatorNum x] /\
  s' = set_floorNum y (on_inElevatorNum s x) /\
  (lightOn s' = true <-> x <> floorNum s) /\
  lightOn s' = negb (x =? floorNum s) /\
  floorNumToMove s' = (if x =? floorNum s then floorNumToMove s else x) /\
  floorNum s' = y /\
  deliver s e (before ++ OnElevatorNum x :: OnElevatorMove y :: after)%list =
  deliver s e (before ++ OnElevatorMove y :: OnElevatorNum x :: after)%list.
Proof.
  cbn zeta. split; [reflexivity|]. split; [reflexivity|].
  split; [|split; [|split; [|split]]].
  - unfold deliver, externalTransition, on_inElevatorNum; cbn.
    destruct (Z.eqb_spec x (floorNum s)); cbn; split; congruence.
  - unfold deliver, externalTransition, on_inElevatorNum; cbn.
    destruct (x =? floorNum s); reflexivity.
  - unfold deliver, externalTransition, on_inElevatorNum; cbn.
    destruct (x =? floorNum s); reflexivity.
  - reflexivity.
  - unfold deliver.
    now rewrite !bag_inElevatorNum_app, !bag_inElevatorMove_app.
Qed.

(** C9: the internal transition of the DoorInterlock touches [sigma] only.
    The time advance afterwards is infinite when [lightOn] (door closed)
    and the short quantum 0.11 when the door is open, so after an internal
    transition the model rests in exactly one of these two modes, and a
    further internal transition changes nothing. *)
Theorem C9_internal_two_resting_modes (s : ElevatorDoorState) :
  internalTransition s =
    set_sigma (if lightOn s then passive else short_quantum) s /\
  timeAdvance (internalTransition s) =
    (if lightOn s then passive else short_quantum) /\
  (timeAdvance (internalTransition s) = passive \/
   timeAdvance (internalTransition s) = short_quantum) /\
  short_quantum <> passive /\
  internalTransition (internalTransition s) = internalTransition s.
Proof.
  unfold internalTransition, timeAdvance.
  destruct s as [sg f t [|] c]; cbn;
    repeat split; auto using short_quantum_finite.
Qed.

(** *** More on the DoorInterlock *)

Lemma requests_keep_currentStatus xs s :
  currentStatus (for_each on_inElevatorNum xs s) = currentStatus s.
Proof.
  apply (for_each_keeps on_inElevatorNum currentStatus).
  intros s0 x. unfold on_inElevatorNum. destruct (x =? floorNum s0); reflexivity.
Qed.

Lemma requests_target xs : forall s,
  floorNumToMove (for_each on_inElevatorNum xs s) =
  last (filter (fun x => negb (x =? floorNum s)) xs) (floorNumToMove s).
Proof.
  induction xs as [|x xs IH]; intros s; [reflexivity|].
  rewrite for_each_cons, IH. cbn [filter].
  unfold on_inElevatorNum at 1 2.
  destruct (Z.eqb_spec x (floorNum s)) as [Heq|Hne]; cbn [negb].
  - reflexivity.
  - cbn [floorNum floorNumToMove set_floorNumToMove set_lightOn].
    now rewrite last_cons.
Qed.

Lemma requests_keep_polling_when_open xs : forall s,
  polling_when_open s -> polling_when_open (for_each on_inElevatorNum xs s).
Proof.
  induction xs as [|x xs IH]; intros s Hs; [exact Hs|].
  rewrite for_each_cons. apply IH. unfold on_inElevatorNum, polling_when_open.
  destruct Hs as [H1 H2].
  destruct (x =? floorNum s); cbn.
  - split; [reflexivity | now left].
  - split; [discriminate | exact H2].
Qed.

(** X7: With several requests in one call the last one decides the door, and
    it is compared with the floor held before the call; requests never
    change [floorNum], which after the call is the last feedback of the
    call, or the old floor without feedback. *)
Theorem door_last_request_decides
    (s : ElevatorDoorState) (e : float) (xs : list Z) (x : Z) (ys : list Z) :
  let s' := externalTransition s e (xs ++ [x])%list ys in
  lightOn s' = negb (x =? floorNum s) /\
  floorNum s' = last ys (floorNum s) /\
  currentStatus s' = currentStatus s.
Proof.
  cbn zeta. rewrite door_externalTransition_loops.
  rewrite feedback_keeps_lightOn, feedback_keeps_currentStatus.
  rewrite (for_each_stores on_inElevatorMove floorNum) by reflexivity.
  rewrite requests_keep_floorNum, requests_keep_currentStatus.
  rewrite for_each_snoc. unfold on_inElevatorNum at 1.
  rewrite requests_keep_floorNum.
  destruct (x =? floorNum s); repeat split.
Qed.

(** X8: The target after a call is the last request of the call that differs
    from the floor held before the call, or the old target when there is
    none: the door never forwards the floor it is at. *)
Theorem door_target_is_last_other_floor
    (s : ElevatorDoorState) (e : float) (xs ys : list Z) :
  let s' := externalTransition s e xs ys in
  floorNumToMove s' =
    last (filter (fun x => negb (x =? floorNum s)) xs) (floorNumToMove s) /\
  (floorNumToMove s' = floorNumToMove s \/ floorNumToMove s' <> floorNum s).
Proof.
  cbn zeta. rewrite door_externalTransition_loops.
  rewrite feedback_keeps_floorNumToMove, requests_target.
  split; [reflexivity|].
  set (l := filter (fun x => negb (x =? floorNum s)) xs).
  destruct l as [|a l'] eqn:El; [now left|]. right.
  assert (Hin : In (last (a :: l') (floorNumToMove s)) l).
  { rewrite El. destruct (exists_last (l:=a :: l') ltac:(discriminate))
      as (l0 & b & Hb).
    rewrite Hb, last_snoc. apply in_or_app. right. now left. }
  subst l. apply filter_In in Hin. destruct Hin as [_ Hne].
  apply negb_true_iff, Z.eqb_neq in Hne. exact Hne.
Qed.

(** X9: Arrival and request in one call: a request for floor [x] that comes
    together with the Mover's report of [x] is still compared with the old
    floor and leaves the door closed; had the report come a call earlier,
    the same request would open the door. *)
Theorem door_arrival_in_same_call_stays_closed
    (s : ElevatorDoorState) (e : float) (x : Z) :
  x <> floorNum s ->
  lightOn (externalTransition s e [x] [x]) = true /\
  floorNum (externalTransition s e [x] [x]) = x /\
  lightOn (externalTransition (externalTransition s e [] [x]) e [x] []) = false.
Proof.
  intros Hne. unfold externalTransition, on_inElevatorNum, on_inElevatorMove.
  cbn. rewrite (proj2 (Z.eqb_neq _ _) Hne). cbn.
  rewrite Z.eqb_refl. repeat split.
Qed.

Lemma door_arrival_in_same_call_stays_closed_witness :
  lightOn (externalTransition initial_state 0%float [2] [2]) = true /\
  floorNum (externalTransition initial_state 0%float [2] [2]) = 2 /\
  lightOn (externalTransition (externalTransition initial_state 0%float [] [2])
             0%float [2] []) = false.
Proof.
  apply (door_arrival_in_same_call_stays_closed initial_state 0%float 2).
  cbn. discriminate.
Defined.

(** X10: In every state the model can be in, an open door has the short
    quantum as its time advance, and the time advance is the short quantum
    or infinite: the model is passive only while the door is closed. *)
Theorem door_open_is_polling (s : ElevatorDoorState) :
  reachable s ->
  (lightOn s = false -> timeAdvance s = short_quantum) /\
  (timeAdvance s = short_quantum \/ timeAdvance s = passive).
Proof.
  unfold timeAdvance. change (reachable s -> polling_when_open s).
  induction 1 as [|s _ IH|s e xs ys _ IH].
  - split; [reflexivity | now left].
  - unfold internalTransition, polling_when_open.
    destruct (lightOn s) eqn:El; cbn; rewrite El.
    + split; [discriminate | now right].
    + split; [reflexivity | now left].
  - rewrite door_externalTransition_loops. unfold polling_when_open.
    rewrite feedback_keeps_lightOn, feedback_keeps_sigma.
    now apply requests_keep_polling_when_open.
Qed.

Lemma door_open_is_polling_witness :
  timeAdvance (externalTransition (internalTransition
     (externalTransition initial_state 0%float [3] [])) 0%float [1] []) =
  short_quantum.
Proof.
  exact (proj1 (door_open_is_polling _
    (door_external _ 0%float [1] []
       (door_internal _ (door_external _ 0%float [3] [] door_constructed))))
    eq_refl).
Defined.

(** X11: A closed door that has gone passive stays closed and passive under any
    run of calls that carry Mover feedback only, and keeps its target: no
    report of the Mover, arrival included, opens the door or wakes the
    model; only a request can. *)
Theorem door_closed_ignores_feedback
    (s : ElevatorDoorState) (e : float) (calls : list (list Z)) :
  lightOn s = true ->
  let s' := feedback_calls e calls (internalTransition s) in
  lightOn s' = true /\ timeAdvance s' = passive /\
  floorNumToMove s' = floorNumToMove s /\
  internalTransition s' = s'.
Proof.
  intros Hl. cbn zeta.
  assert (H0 : lightOn (internalTransition s) = true /\
               sigma (internalTransition s) = passive /\
               floorNumToMove (internalTransition s) = floorNumToMove s).
  { unfold internalTransition. rewrite Hl. cbn. now rewrite Hl. }
  revert H0. generalize (internalTransition s). intros st.
  unfold feedback_calls, timeAdvance. revert st.
  induction calls as [|ys calls IH]; intros st (H1 & H2 & H3).
  - cbn [fold_left]. repeat split; auto.
    unfold internalTransition. rewrite H1. cbn.
    destruct st as [sg f t l c]. cbn in *. now subst.
  - cbn [fold_left]. apply IH.
    rewrite door_externalTransition_loops, for_each_nil.
    now rewrite feedback_keeps_lightOn, feedback_keeps_sigma,
      feedback_keeps_floorNumToMove.
Qed.

Lemma door_closed_ignores_feedback_witness :
  lightOn (feedback_calls 0%float [[2]; [3]; [3]]
             (internalTransition
                (externalTransition initial_state 0%float [3] []))) = true.
Proof.
  exact (proj1 (door_closed_ignores_feedback
                  (externalTransition initial_state 0%float [3] [])
                  0%float [[2]; [3]; [3]] eq_refl)).
Defined.

End DoorInterlock.

(** ** FloorSelector *)

Module FloorSelector.
Import Cxx CxxFacts ElevatorNum SpecWords.

Lemma selector_externalTransition_loops s e pulses xs ys ds :
  externalTransition s e pulses xs ys ds =
  for_each on_inDoorStatus ds
    (for_each on_inY ys (for_each on_inX xs (for_each on_inInput pulses s))).
Proof. unfold externalTransition. now rewrite !guarded_for_each. Qed.

(** The loops over [inX], [inY] and [inDoorStatus] touch neither the
    selected floor nor the diagnostic string. *)
Lemma externalTransition_floorNum s e pulses xs ys ds :
  floorNum (externalTransition s e pulses xs ys ds) =
  floorNum (for_each on_inInput pulses s).
Proof.
  rewrite selector_externalTransition_loops.
  rewrite (for_each_keeps on_inDoorStatus floorNum) by reflexivity.
  rewrite (for_each_keeps on_inY floorNum) by reflexivity.
  now rewrite (for_each_keeps on_inX floorNum) by reflexivity.
Qed.

Lemma externalTransition_currentStatus s e pulses xs ys ds :
  currentStatus (externalTransition s e pulses xs ys ds) =
  currentStatus (for_each on_inInput pulses s).
Proof.
  rewrite selector_externalTransition_loops.
  rewrite (for_each_keeps on_inDoorStatus currentStatus) by reflexivity.
  rewrite (for_each_keeps on_inY currentStatus) by reflexivity.
  now rewrite (for_each_keeps on_inX currentStatus) by reflexivity.
Qed.

Lemma on_inInput_axes_lock s i :
  xCoordinate (on_inInput s i) = xCoordinate s /\
  yCoordinate (on_inInput s i) = yCoordinate s /\
  doorStatus (on_inInput s i) = doorStatus s.
Proof.
  destruct s as [sg x y f d c]. unfold on_inInput. cbn.
  repeat match goal with
    | |- context [if ?c then _ else _] => destruct c
    end; repeat split.
Qed.

Lemma on_inInput_without_effect s i :
  without_effect s -> floorNum (on_inInput s i) = floorNum s.
Proof.
  unfold without_effect, quadrant_floor, on_inInput.
  intros [Hl | Hq].
  - rewrite Hl. reflexivity.
  - destruct (doorStatus s); cbn [Bool.eqb]; [reflexivity|].
    destruct (Z.b2z i =? 0); [|reflexivity].
    rewrite !Z.gtb_ltb in *.
    destruct (Z.ltb_spec (xCoordinate s) 400), (Z.ltb_spec 600 (xCoordinate s)),
      (Z.ltb_spec 600 (yCoordinate s)), (Z.ltb_spec (yCoordinate s) 400);
      cbn [andb] in Hq |- *; try lia; try reflexivity;
      destruct Hq as [Hq | Hq]; try discriminate;
      injection Hq as Hq; rewrite <- Hq; cbn; congruence.
Qed.

(** An accepted pulse against the quadrant map of the specification: the
    floor of the quadrant, or the floor as it was outside every quadrant. *)
Lemma on_inInput_quadrant_floor s :
  doorStatus s = false ->
  floorNum (on_inInput s false) =
  match quadrant_floor (xCoordinate s) (yCoordinate s) with
  | Some f => f
  | None => floorNum s
  end.
Proof.
  intros Hopen. unfold on_inInput, quadrant_floor. rewrite Hopen.
  cbn [Bool.eqb Z.b2z Z.eqb]. rewrite !Z.gtb_ltb.
  destruct (Z.ltb_spec (xCoordinate s) 400), (Z.ltb_spec 600 (xCoordinate s)),
    (Z.ltb_spec 600 (yCoordinate s)), (Z.ltb_spec (yCoordinate s) 400);
    try lia; cbn [andb];
    repeat match goal with
      | |- context [?a =? ?b] => destruct (Z.eqb_spec a b)
      end; cbn; congruence.
Qed.

Lemma without_effect_kept s i :
  without_effect s -> without_effect (on_inInput s i).
Proof.
  intros H. pose proof (on_inInput_without_effect s i H) as Hf.
  destruct (on_inInput_axes_lock s i) as (Hx & Hy & Hd).
  unfold without_effect. now rewrite Hx, Hy, Hd, Hf.
Qed.

Lemma pulses_without_effect pulses s :
  without_effect s ->
  floorNum (for_each on_inInput pulses s) = floorNum s /\
  without_effect (for_each on_inInput pulses s).
Proof.
  revert s. induction pulses as [|i pulses IH]; intros s H.
  - now rewrite for_each_nil.
  - rewrite for_each_cons.
    destruct (IH (on_inInput s i) (without_effect_kept s i H)) as [Hf Hw].
    split; [|exact Hw].
    rewrite Hf. now apply on_inInput_without_effect.
Qed.

Lemma confirm_call_loop e s pulses :
  confirm_call e s pulses = for_each on_inInput pulses s.
Proof.
  unfold confirm_call. rewrite selector_externalTransition_loops. reflexivity.
Qed.

Lemma externalTransition_stays_locked s e pulses xs ys ds :
  doorStatus s = true -> Forall (eq true) ds ->
  doorStatus (externalTransition s e pulses xs ys ds) = true.
Proof.
  intros Hl Hds. rewrite selector_externalTransition_loops.
  set (s3 := for_each on_inY ys (for_each on_inX xs (for_each on_inInput pulses s))).
  assert (H3 : doorStatus s3 = true).
  { subst s3.
    rewrite (for_each_keeps on_inY doorStatus) by reflexivity.
    rewrite (for_each_keeps on_inX doorStatus) by reflexivity.
    rewrite (for_each_keeps on_inInput doorStatus); [exact Hl|].
    intros; apply on_inInput_axes_lock. }
  clearbody s3. revert s3 H3.
  induction Hds as [|d ds Hd _ IH]; intros s3 H3; [exact H3|].
  rewrite for_each_cons. apply IH. now subst d.
Qed.

Lemma external_calls_locked e calls : forall s,
  doorStatus s = true ->
  Forall (fun b => Forall (eq true) (inDoorStatus b)) calls ->
  floorNum (external_calls e calls s) = floorNum s.
Proof.
  unfold external_calls.
  induction calls as [|b calls IH]; intros s Hl Hcalls; [reflexivity|].
  inversion Hcalls as [|b' calls' Hb Hrest]; subst.
  cbn [fold_left]. rewrite IH.
  - unfold external_call. rewrite externalTransition_floorNum.
    apply pulses_without_effect. now left.
  - unfold external_call. now apply externalTransition_stays_locked.
  - exact Hrest.
Qed.

(** C5, as the code has it: with the selector unlocked, a confirm message
    of value [false] on [inInput] (the test is [i == 0]) resolves the axes
    held before the call: strictly inside a quadrant, [floorNum] afterwards
    is that quadrant's floor, whatever else arrives on the other ports in
    the same call. *)
Theorem C5_confirm_resolves_quadrant
    (s : ElevatorNumState) (e : float) (xs ys : list Z) (ds : list bool) :
  doorStatus s = false ->
  let s' := externalTransition s e [false] xs ys ds in
  (xCoordinate s < 400 /\ yCoordinate s > 600 -> floorNum s' = 1) /\
  (xCoordinate s > 600 /\ yCoordinate s > 600 -> floorNum s' = 2) /\
  (xCoordinate s < 400 /\ yCoordinate s < 400 -> floorNum s' = 3) /\
  (xCoordinate s > 600 /\ yCoordinate s < 400 -> floorNum s' = 4).
Proof.
  intros Hopen. cbn zeta. rewrite externalTransition_floorNum.
  rewrite for_each_cons, for_each_nil. unfold on_inInput.
  rewrite Hopen. cbn [Bool.eqb Z.b2z Z.eqb]. rewrite !Z.gtb_ltb.
  destruct (Z.ltb_spec (xCoordinate s) 400), (Z.ltb_spec 600 (xCoordinate s)),
    (Z.ltb_spec 600 (yCoordinate s)), (Z.ltb_spec (yCoordinate s) 400);
    destruct (Z.eqb_spec (floorNum s) 1), (Z.eqb_spec (floorNum s) 2),
      (Z.eqb_spec (floorNum s) 3), (Z.eqb_spec (floorNum s) 4);
    cbn; repeat split; intros [? ?]; lia.
Qed.

Lemma C5_confirm_resolves_quadrant_witness :
  floorNum (externalTransition (mkState short_quantum 700 900 1 false "")
              0%float [false] [350] [] [true]) = 2.
Proof.
  exact (proj1 (proj2
    (C5_confirm_resolves_quadrant (mkState short_quantum 700 900 1 false "")
       0%float [350] [] [true] eq_refl))
    (conj eq_refl eq_refl)).
Defined.

(** C5 as worded fails for a confirm message of value [true]: unlocked,
    axes (700, 900) strictly inside the quadrant of floor 2, floor 1
    selected; the call leaves [floorNum] at 1. *)
Lemma C5_counterexample :
  let s := mkState short_quantum 700 900 1 false "" in
  doorStatus s = false /\
  xCoordinate s > 600 /\ yCoordinate s > 600 /\
  floorNum (externalTransition s 0%float [true] [] [] []) = 1 /\
  ~ (forall (st : ElevatorNumState) (i : bool),
       doorStatus st = false ->
       xCoordinate st > 600 /\ yCoordinate st > 600 ->
       floorNum (externalTransition st 0%float [i] [] [] []) = 2).
Proof.
  cbn zeta. split; [reflexivity|]. split; [reflexivity|].
  split; [reflexivity|]. split; [reflexivity|].
  intros H.
  specialize (H (mkState short_quantum 700 900 1 false "") true
                eq_refl (conj eq_refl eq_refl)).
  vm_compute in H. discriminate.
Qed.

(** C6: a confirm pulse is without effect on [floorNum] when the selector
    is locked, when the axes are in none of the four quadrants, and when
    they are in the quadrant of the floor already selected.  This holds for
    a bag of any number of pulses of either value, together with anything
    on the other ports, and for any run of calls that carry pulses only.
    Under lock it holds for any run of calls, whatever they carry, as long
    as no call lifts the lock.  The transition is a total function: there
    is no error outcome. *)
Theorem C6_confirm_without_effect (s : ElevatorNumState) :
  doorStatus s = true \/
  quadrant_floor (xCoordinate s) (yCoordinate s) = None \/
  quadrant_floor (xCoordinate s) (yCoordinate s) = Some (floorNum s) ->
  (forall e pulses xs ys ds,
     floorNum (externalTransition s e pulses xs ys ds) = floorNum s) /\
  (forall e calls, floorNum (confirm_calls e calls s) = floorNum s) /\
  (doorStatus s = true ->
   forall e calls,
     Forall (fun b => Forall (eq true) (inDoorStatus b)) calls ->
     floorNum (external_calls e calls s) = floorNum s).
Proof.
  intros H. change (without_effect s) in H. split; [|split].
  - intros e pulses xs ys ds. rewrite externalTransition_floorNum.
    now apply pulses_without_effect.
  - intros e calls. unfold confirm_calls. revert s H.
    induction calls as [|c calls IH]; intros s H; [reflexivity|].
    cbn [fold_left]. rewrite confirm_call_loop.
    destruct (pulses_without_effect c s H) as [Hf Hw].
    rewrite (IH _ Hw). exact Hf.
  - intros Hl e calls Hcalls. now apply external_calls_locked.
Qed.

Lemma C6_confirm_without_effect_witness :
  floorNum (externalTransition (mkState short_quantum 700 900 1 true "")
              0%float [false; false; true] [] [] []) = 1 /\
  floorNum (confirm_calls 0%float [[false]; [false; false]]
              (mkState short_quantum 700 900 1 true "")) = 1.
Proof.
  destruct (C6_confirm_without_effect (mkState short_quantum 700 900 1 true "")
              (or_introl eq_refl)) as (H1 & H2 & _).
  split; [apply H1 | apply H2].
Defined.

(** C10: with the selector unlocked, a message [true] on [inInput] changes
    neither [floorNum] nor the diagnostic string, whatever the axes are; a
    single pulse that changes [floorNum] carries the value [false]. *)
Theorem C10_true_pulse_ignored
    (s : ElevatorNumState) (e : float) (xs ys : list Z) (ds : list bool) :
  doorStatus s = false ->
  (floorNum (externalTransition s e [true] xs ys ds) = floorNum s /\
   currentStatus (externalTransition s e [true] xs ys ds) = currentStatus s) /\
  (forall i, floorNum (externalTransition s e [i] xs ys ds) <> floorNum s ->
             i = false).
Proof.
  intros Hopen. split.
  - rewrite externalTransition_floorNum, externalTransition_currentStatus.
    rewrite for_each_cons, for_each_nil. unfold on_inInput.
    rewrite Hopen. cbn. split; reflexivity.
  - intros [|] Hch; [|reflexivity]. exfalso. apply Hch.
    rewrite externalTransition_floorNum, for_each_cons, for_each_nil.
    unfold on_inInput. rewrite Hopen. reflexivity.
Qed.

Lemma C10_true_pulse_ignored_witness :
  floorNum (externalTransition (mkState short_quantum 700 900 1 false "")
              0%float [true] [] [] []) = 1 /\
  currentStatus (externalTransition (mkState short_quantum 700 900 1 false "")
              0%float [true] [] [] []) = "".
Proof.
  exact (proj1 (C10_true_pulse_ignored (mkState short_quantum 700 900 1 false "")
                  0%float [] [] [] eq_refl)).
Defined.

(** *** More on the FloorSelector *)

Lemma on_inInput_sigma s i : sigma (on_inInput s i) = sigma s.
Proof.
  destruct s as [sg x y f d c]. unfold on_inInput. cbn.
  repeat match goal with
    | |- context [if ?c then _ else _] => destruct c
    end; reflexivity.
Qed.

Lemma on_inInput_unlocked_true s :
  doorStatus s = false -> on_inInput s true = s.
Proof. intros H. unfold on_inInput. rewrite H. reflexivity. Qed.

Ltac settle_tests :=
  repeat (progress (
    repeat match goal with
      | |- context [?a <? ?b] =>
          first [ rewrite (proj2 (Z.ltb_lt a b)) by lia
                | rewrite (proj2 (Z.ltb_ge a b)) by lia ]
      | |- context [?a =? ?b] =>
          first [ rewrite (proj2 (Z.eqb_eq a b)) by lia
                | rewrite (proj2 (Z.eqb_neq a b)) by lia ]
      end; cbn -[Z.eqb Z.ltb])).

Lemma on_inInput_unlocked_twice s :
  doorStatus s = false ->
  on_inInput (on_inInput s false) false = on_inInput s false.
Proof.
  destruct s as [sg x y f d c]. cbn. intros ->.
  unfold on_inInput. cbn. rewrite !Z.gtb_ltb.
  destruct (Z.lt_ge_cases x 400), (Z.lt_ge_cases 600 x),
    (Z.lt_ge_cases 600 y), (Z.lt_ge_cases y 400); try lia;
    destruct (Z.eq_dec f 1), (Z.eq_dec f 2),
      (Z.eq_dec f 3), (Z.eq_dec f 4); try lia;
    settle_tests; reflexivity.
Qed.

Lemma pulses_unlocked_collapse pulses : forall s,
  doorStatus s = false ->
  for_each on_inInput pulses s =
  if existsb negb pulses then on_inInput s false else s.
Proof.
  induction pulses as [|[|] pulses IH]; intros s Hopen.
  - reflexivity.
  - rewrite for_each_cons, on_inInput_unlocked_true by exact Hopen.
    cbn [existsb negb orb]. now apply IH.
  - rewrite for_each_cons. cbn [existsb negb orb].
    rewrite IH.
    + destruct (existsb negb pulses); [|reflexivity].
      now apply on_inInput_unlocked_twice.
    + destruct (on_inInput_axes_lock s false) as (_ & _ & Hd).
      now rewrite Hd.
Qed.

Lemma pulses_locked_marks pulses : forall s,
  doorStatus s = true ->
  for_each on_inInput pulses s =
  append_currentStatus (rejected_marks (List.length pulses)) s.
Proof.
  induction pulses as [|i pulses IH]; intros s Hl.
  - destruct s as [sg x y f d c]. unfold append_currentStatus. cbn.
    now rewrite string_append_nil_r.
  - rewrite for_each_cons.
    assert (Hstep : on_inInput s i = append_currentStatus "DC " s).
    { unfold on_inInput. rewrite Hl. reflexivity. }
    rewrite Hstep, IH by exact Hl.
    destruct s as [sg x y f d c]. unfold append_currentStatus. cbn.
    now rewrite string_append_assoc.
Qed.

Lemma selector_externalTransition_sigma s e pulses xs ys ds :
  sigma (externalTransition s e pulses xs ys ds) = sigma s.
Proof.
  rewrite selector_externalTransition_loops.
  rewrite (for_each_keeps on_inDoorStatus sigma) by reflexivity.
  rewrite (for_each_keeps on_inY sigma) by reflexivity.
  rewrite (for_each_keeps on_inX sigma) by reflexivity.
  rewrite (for_each_keeps on_inInput sigma); [reflexivity|].
  apply on_inInput_sigma.
Qed.

(** X1: Axes and lock flag are stored whatever the lock says: after a call each
    of [xCoordinate], [yCoordinate] and [doorStatus] holds the last message
    of its port, or its old value when the port was empty, and [sigma] is
    as before. *)
Theorem selector_stores_axes_and_lock
    (s : ElevatorNumState) (e : float) (pulses : list bool)
    (xs ys : list Z) (ds : list bool) :
  let s' := externalTransition s e pulses xs ys ds in
  xCoordinate s' = last xs (xCoordinate s) /\
  yCoordinate s' = last ys (yCoordinate s) /\
  doorStatus s' = last ds (doorStatus s) /\
  sigma s' = sigma s.
Proof.
  cbn zeta. rewrite selector_externalTransition_loops.
  split; [|split; [|split]].
  - rewrite (for_each_keeps on_inDoorStatus xCoordinate) by reflexivity.
    rewrite (for_each_keeps on_inY xCoordinate) by reflexivity.
    rewrite (for_each_stores on_inX xCoordinate) by reflexivity.
    rewrite (for_each_keeps on_inInput xCoordinate); [reflexivity|].
    intros; apply on_inInput_axes_lock.
  - rewrite (for_each_keeps on_inDoorStatus yCoordinate) by reflexivity.
    rewrite (for_each_stores on_inY yCoordinate) by reflexivity.
    rewrite (for_each_keeps on_inX yCoordinate) by reflexivity.
    rewrite (for_each_keeps on_inInput yCoordinate); [reflexivity|].
    intros; apply on_inInput_axes_lock.
  - rewrite (for_each_stores on_inDoorStatus doorStatus) by reflexivity.
    rewrite (for_each_keeps on_inY doorStatus) by reflexivity.
    rewrite (for_each_keeps on_inX doorStatus) by reflexivity.
    rewrite (for_each_keeps on_inInput doorStatus); [reflexivity|].
    intros; apply on_inInput_axes_lock.
  - rewrite <- (selector_externalTransition_loops s e).
    apply selector_externalTransition_sigma.
Qed.

(** X2: Pulses are judged before anything else of the same call is stored: a
    call is the call with its pulses alone followed by the call with its
    other bags, so a lock flag or new axes that arrive together with a
    pulse do not reach that pulse. *)
Theorem selector_pulses_come_first
    (s : ElevatorNumState) (e : float) (pulses : list bool)
    (xs ys : list Z) (ds : list bool) :
  externalTransition s e pulses xs ys ds =
    externalTransition (externalTransition s e pulses [] [] []) e [] xs ys ds /\
  floorNum (externalTransition s e pulses xs ys ds) =
    floorNum (externalTransition s e pulses [] [] []) /\
  currentStatus (externalTransition s e pulses xs ys ds) =
    currentStatus (externalTransition s e pulses [] [] []).
Proof.
  split; [|split].
  - rewrite !selector_externalTransition_loops. reflexivity.
  - now rewrite !externalTransition_floorNum.
  - now rewrite !externalTransition_currentStatus.
Qed.

(** X3: Unlocked, a bag of pulses counts as at most one: with a [false] among
    them the call is that of a single [false] pulse, and a repeated confirm
    on the same axes changes nothing more; with none it is the call without
    pulses. *)
Theorem selector_unlocked_bag_collapses
    (s : ElevatorNumState) (e : float) (pulses : list bool)
    (xs ys : list Z) (ds : list bool) :
  doorStatus s = false ->
  externalTransition s e pulses xs ys ds =
  externalTransition s e (if existsb negb pulses then [false] else []) xs ys ds.
Proof.
  intros Hopen. rewrite !selector_externalTransition_loops.
  rewrite (pulses_unlocked_collapse pulses s Hopen).
  destruct (existsb negb pulses); reflexivity.
Qed.

Lemma selector_unlocked_bag_collapses_witness :
  externalTransition (mkState short_quantum 700 900 1 false "")
    0%float [true; false; false; true] [] [] [] =
  externalTransition (mkState short_quantum 700 900 1 false "")
    0%float [false] [] [] [].
Proof.
  exact (selector_unlocked_bag_collapses (mkState short_quantum 700 900 1 false "")
           0%float [true; false; false; true] [] [] [] eq_refl).
Defined.

(** X4: Locked, every pulse of either value leaves one mark ["DC "] in
    [currentStatus] and nothing else: after a call the string is the old
    one followed by as many marks as the bag had pulses, and [floorNum] is
    as before. *)
Theorem selector_locked_marks_every_pulse
    (s : ElevatorNumState) (e : float) (pulses : list bool)
    (xs ys : list Z) (ds : list bool) :
  doorStatus s = true ->
  let s' := externalTransition s e pulses xs ys ds in
  currentStatus s' = currentStatus s ++ rejected_marks (List.length pulses) /\
  String.length (currentStatus s') =
    (String.length (currentStatus s) + 3 * List.length pulses)%nat /\
  floorNum s' = floorNum s.
Proof.
  intros Hl. cbn zeta.
  rewrite externalTransition_currentStatus, externalTransition_floorNum.
  rewrite (pulses_locked_marks pulses s Hl).
  split; [reflexivity|]. split; [|reflexivity].
  cbn [currentStatus append_currentStatus].
  generalize (currentStatus s). intros c.
  induction c as [|ch c IH].
  - cbn [append String.length Nat.add].
    induction pulses as [|i pulses IHp]; [reflexivity|].
    cbn [rejected_marks List.length append String.length]. rewrite IHp. lia.
  - cbn [append String.length]. rewrite IH. lia.
Qed.

Lemma selector_locked_marks_every_pulse_witness :
  currentStatus (externalTransition (mkState short_quantum 700 900 1 true "2 1 ")
                   0%float [false; true] [] [] [false]) = "2 1 DC DC ".
Proof.
  exact (proj1 (selector_locked_marks_every_pulse
                  (mkState short_quantum 700 900 1 true "2 1 ")
                  0%float [false; true] [] [] [false] eq_refl)).
Defined.

(** X5: Unlocked, the diagnostic string records exactly the selections: a
    pulse that leaves [floorNum] as it is leaves the string as it is, and a
    pulse that changes [floorNum] appends the new floor in decimal and a
    blank. *)
Theorem selector_log_follows_selection
    (s : ElevatorNumState) (e : float) (i : bool)
    (xs ys : list Z) (ds : list bool) :
  doorStatus s = false ->
  let s' := externalTransition s e [i] xs ys ds in
  currentStatus s' =
    if floorNum s' =? floorNum s then currentStatus s
    else currentStatus s ++ to_string (floorNum s') ++ " ".
Proof.
  intros Hopen. cbn zeta.
  rewrite externalTransition_currentStatus, externalTransition_floorNum.
  rewrite for_each_cons, for_each_nil.
  destruct s as [sg x y f d c]. cbn in Hopen. subst d.
  destruct i; unfold on_inInput; cbn -[Z.eqb Z.ltb]; [now rewrite Z.eqb_refl|].
  rewrite !Z.gtb_ltb.
  destruct (Z.lt_ge_cases x 400), (Z.lt_ge_cases 600 x),
    (Z.lt_ge_cases 600 y), (Z.lt_ge_cases y 400); try lia;
    destruct (Z.eq_dec f 1), (Z.eq_dec f 2),
      (Z.eq_dec f 3), (Z.eq_dec f 4); try lia;
    settle_tests; reflexivity.
Qed.

Lemma selector_log_follows_selection_witness :
  currentStatus (externalTransition (mkState short_quantum 700 100 1 false "2 1 ")
                   0%float [false] [] [] []) = "2 1 4 ".
Proof.
  exact (selector_log_follows_selection
           (mkState short_quantum 700 100 1 false "2 1 ")
           0%float false [] [] [] eq_refl).
Defined.

(** X6: In every state the model can be in, the selected floor is one of 1 to
    4 and the time advance is the short quantum 0.11: the selector never
    goes passive and never holds a floor outside the four quadrants'. *)
Theorem selector_reachable_floor_and_quantum (s : ElevatorNumState) :
  reachable s -> 1 <= floorNum s <= 4 /\ timeAdvance s = short_quantum.
Proof.
  induction 1 as [|s _ IH|s e pulses xs ys ds _ IH].
  - cbn. split; [lia|reflexivity].
  - exact IH.
  - destruct IH as [Hf Hs]. split.
    + rewrite externalTransition_floorNum. clear Hs. revert s Hf.
      induction pulses as [|i pulses IHp]; intros s Hf; [exact Hf|].
      rewrite for_each_cons. apply IHp.
      destruct s as [sg x y f d c]. unfold on_inInput. cbn in *.
      repeat match goal with
        | |- context [if ?c then _ else _] => destruct c
        end; cbn; lia.
    + unfold timeAdvance in *.
      now rewrite selector_externalTransition_sigma.
Qed.

Lemma selector_reachable_floor_and_quantum_witness :
  1 <= floorNum (externalTransition initial_state 0%float [false] [900] [900] []) <= 4.
Proof.
  exact (proj1 (selector_reachable_floor_and_quantum _
                  (selector_external initial_state 0%float [false] [900] [900] []
                     selector_constructed))).
Defined.

End FloorSelector.

(** ** Mover *)

Module Mover.
Import Cxx CxxFacts ElevatorMove SpecWords.

Lemma externalTransition_loop s e bag :
  externalTransition s e bag = for_each on_inMoveFloor bag s.
Proof. unfold externalTransition. apply guarded_for_each. Qed.

Lemma on_inMoveFloor_frame s x :
  sigma (on_inMoveFloor s x) = sigma s /\
  floorNum (on_inMoveFloor s x) = floorNum s /\
  buzzerDuty (on_inMoveFloor s x) = buzzerDuty s /\
  currentStatus (on_inMoveFloor s x) = currentStatus s /\
  floorToMove (on_inMoveFloor s x) = x.
Proof.
  unfold on_inMoveFloor.
  destruct (Z.eqb_spec (floorToMove s) x); cbn; auto.
Qed.

Lemma externalTransition_frame s e bag :
  sigma (externalTransition s e bag) = sigma s /\
  floorNum (externalTransition s e bag) = floorNum s /\
  buzzerDuty (externalTransition s e bag) = buzzerDuty s /\
  currentStatus (externalTransition s e bag) = currentStatus s.
Proof.
  rewrite externalTransition_loop. repeat split.
  - apply (for_each_keeps on_inMoveFloor sigma). intros; apply on_inMoveFloor_frame.
  - apply (for_each_keeps on_inMoveFloor floorNum). intros; apply on_inMoveFloor_frame.
  - apply (for_each_keeps on_inMoveFloor buzzerDuty). intros; apply on_inMoveFloor_frame.
  - apply (for_each_keeps on_inMoveFloor currentStatus). intros; apply on_inMoveFloor_frame.
Qed.

Lemma externalTransition_single s e x :
  floorToMove (externalTransition s e [x]) = x.
Proof.
  rewrite externalTransition_loop, for_each_cons, for_each_nil.
  apply on_inMoveFloor_frame.
Qed.

Lemma internalTransition_frame s :
  sigma (internalTransition s) = sigma s /\
  floorToMove (internalTransition s) = floorToMove s.
Proof.
  unfold internalTransition.
  destruct (floorNum s <? floorToMove s); [split; reflexivity|].
  destruct (floorNum s >? floorToMove s); [split; reflexivity|].
  destruct (floorNum s =? floorToMove s); split; reflexivity.
Qed.

(** [sigma] is written by the constructor only. *)
Lemma reachable_sigma s : reachable s -> sigma s = move_quantum.
Proof.
  induction 1 as [|s _ IH|s e bag _ IH].
  - reflexivity.
  - now rewrite (proj1 (internalTransition_frame s)).
  - now rewrite (proj1 (externalTransition_frame s e bag)).
Qed.

(** The three branches of [internalTransition], on floors that are C++
    [int]s. *)
Lemma internalTransition_up s :
  int_range (floorToMove s) -> int_range (floorNum s) ->
  floorNum s < floorToMove s ->
  floorNum (internalTransition s) = floorNum s + 1 /\
  buzzerDuty (internalTransition s) = 2.
Proof.
  intros HB HA Hlt. unfold internalTransition.
  rewrite (proj2 (Z.ltb_lt _ _) Hlt).
  cbn [floorNum buzzerDuty set_buzzerDuty set_floorNum set_currentStatus].
  split; [|reflexivity].
  apply wrap_int_id. unfold int_range, INT_MIN, INT_MAX in *. lia.
Qed.

Lemma internalTransition_down s :
  int_range (floorToMove s) -> int_range (floorNum s) ->
  floorNum s > floorToMove s ->
  floorNum (internalTransition s) = floorNum s - 1 /\
  buzzerDuty (internalTransition s) = 2.
Proof.
  intros HB HA Hgt. unfold internalTransition.
  destruct (Z.ltb_spec (floorNum s) (floorToMove s)); [lia|].
  rewrite Z.gtb_ltb, (proj2 (Z.ltb_lt _ _)) by lia.
  cbn [floorNum buzzerDuty set_buzzerDuty set_floorNum set_currentStatus].
  split; [|reflexivity].
  apply wrap_int_id. unfold int_range, INT_MIN, INT_MAX in *. lia.
Qed.

Lemma internalTransition_at_target s :
  floorNum s = floorToMove s ->
  internalTransition s = set_buzzerDuty 0 s.
Proof.
  intros Heq. unfold internalTransition.
  rewrite Z.gtb_ltb, Heq, Z.ltb_irrefl, Z.eqb_refl. reflexivity.
Qed.

Lemma internal_run_S n s :
  internal_run (S n) s = internalTransition (internal_run n s).
Proof.
  revert s. induction n as [|n IH]; intros s; [reflexivity|].
  change (internal_run (S (S n)) s) with (internal_run (S n) (internalTransition s)).
  now rewrite IH.
Qed.

Lemma internal_run_floorToMove n s :
  floorToMove (internal_run n s) = floorToMove s.
Proof.
  revert s. induction n as [|n IH]; intros s; [reflexivity|].
  cbn [internal_run]. rewrite IH. apply internalTransition_frame.
Qed.

(** Going up: after [k] transitions, [k] floors higher, as long as the
    target is not overshot. *)
Lemma internal_run_up k : forall s,
  int_range (floorToMove s) -> int_range (floorNum s) ->
  floorNum s + Z.of_nat k <= floorToMove s ->
  floorNum (internal_run k s) = floorNum s + Z.of_nat k /\
  ((0 < k)%nat -> buzzerDuty (internal_run k s) = 2).
Proof.
  induction k as [|k IH]; intros s HB HA Hle.
  - cbn [internal_run]. split; [lia|lia].
  - cbn [internal_run].
    destruct (internalTransition_up s HB HA ltac:(lia)) as [Hf Hb].
    pose proof (proj2 (internalTransition_frame s)) as Ht.
    destruct (IH (internalTransition s)) as [Hf' Hb'].
    + now rewrite Ht.
    + rewrite Hf. unfold int_range, INT_MIN, INT_MAX in *. lia.
    + rewrite Hf, Ht. lia.
    + split; [rewrite Hf', Hf; lia|]. intros _.
      destruct k as [|k]; [exact Hb|]. apply Hb'. lia.
Qed.

Lemma internal_run_down k : forall s,
  int_range (floorToMove s) -> int_range (floorNum s) ->
  floorToMove s <= floorNum s - Z.of_nat k ->
  floorNum (internal_run k s) = floorNum s - Z.of_nat k /\
  ((0 < k)%nat -> buzzerDuty (internal_run k s) = 2).
Proof.
  induction k as [|k IH]; intros s HB HA Hle.
  - cbn [internal_run]. split; [lia|lia].
  - cbn [internal_run].
    destruct (internalTransition_down s HB HA ltac:(lia)) as [Hf Hb].
    pose proof (proj2 (internalTransition_frame s)) as Ht.
    destruct (IH (internalTransition s)) as [Hf' Hb'].
    + now rewrite Ht.
    + rewrite Hf. unfold int_range, INT_MIN, INT_MAX in *. lia.
    + rewrite Hf, Ht. lia.
    + split; [rewrite Hf', Hf; lia|]. intros _.
      destruct k as [|k]; [exact Hb|]. apply Hb'. lia.
Qed.

(** Both directions at once: [k] transitions, [k] floors nearer. *)
Lemma internal_run_toward k s :
  int_range (floorToMove s) -> int_range (floorNum s) ->
  Z.of_nat k <= Z.abs (floorToMove s - floorNum s) ->
  floorNum (internal_run k s) =
    floorNum s + Z.sgn (floorToMove s - floorNum s) * Z.of_nat k /\
  ((0 < k)%nat -> buzzerDuty (internal_run k s) = 2).
Proof.
  intros HB HA Hk.
  destruct (Z.lt_trichotomy (floorNum s) (floorToMove s)) as [Hlt|[Heq|Hgt]].
  - destruct (internal_run_up k s HB HA ltac:(lia)) as [Hf Hb].
    split; [rewrite Hf; lia | exact Hb].
  - assert (k = 0%nat) by lia. subst k. cbn [internal_run]. split; lia.
  - destruct (internal_run_down k s HB HA ltac:(lia)) as [Hf Hb].
    split; [rewrite Hf; lia | exact Hb].
Qed.

(** C2, as the code has it: a time-driven transition that fires with
    [floorNum == floorToMove] sets [buzzerDuty] to [0] and changes nothing
    else.  The Mover does not become quiescent: [sigma] is written by the
    constructor only, so in every reachable state, idle or not, the time
    advance is the traversal quantum 2.0, before and after a time-driven
    transition.  Each further firing at the target is the same no-op. *)
Theorem C2_idle_firing_keeps_quantum (s : ElevatorMoveState) :
  reachable s ->
  timeAdvance s = move_quantum /\
  ~ quiescent s /\
  timeAdvance (internalTransition s) = move_quantum /\
  ~ quiescent (internalTransition s) /\
  (floorNum s = floorToMove s ->
     internalTransition s = set_buzzerDuty 0 s /\
     idle (internalTransition s) /\
     internalTransition (internalTransition s) = internalTransition s).
Proof.
  intros Hr.
  pose proof (reachable_sigma s Hr) as Hs.
  pose proof (reachable_sigma _ (reach_internal s Hr)) as Hs'.
  unfold quiescent, timeAdvance. rewrite Hs, Hs'.
  split; [reflexivity|]. split; [apply move_quantum_finite|].
  split; [reflexivity|]. split; [apply move_quantum_finite|].
  intros Heq. rewrite (internalTransition_at_target s Heq).
  split; [reflexivity|]. split; [reflexivity|].
  rewrite internalTransition_at_target by exact Heq. reflexivity.
Qed.

Lemma C2_idle_firing_keeps_quantum_witness :
  timeAdvance (internalTransition initial_state) = move_quantum /\
  idle (internalTransition initial_state) /\
  internalTransition (internalTransition initial_state) =
    internalTransition initial_state.
Proof.
  destruct (C2_idle_firing_keeps_quantum initial_state reach_initial)
    as (_ & _ & Ht & _ & Hidle).
  destruct (Hidle eq_refl) as (_ & Hi & Hfix).
  split; [exact Ht | split; [exact Hi | exact Hfix]].
Defined.

(** C2 as worded fails on the constructed state: the floors are equal, the
    transition sets the duty to [0], and the time advance afterwards is
    2.0, not infinite. *)
Lemma C2_counterexample :
  floorNum initial_state = floorToMove initial_state /\
  idle (internalTransition initial_state) /\
  timeAdvance (internalTransition initial_state) = move_quantum /\
  ~ quiescent (internalTransition initial_state).
Proof.
  repeat split. exact move_quantum_finite.
Qed.

(** C7, as the code has it: target [B] received at floor [A], both C++
    [int]s, [A <> B], no further input.  Each of the first [|B - A|]
    time-driven transitions moves [floorNum] by exactly one floor toward
    [B] and sets [buzzerDuty] to [2], the arriving one included; after
    exactly [|B - A|] of them [floorNum] is [B] for the first time, with the
    duty still [2]; the next transition sets the duty to [0] and leaves the
    floor at [B]. *)
Theorem C7_traversal_steps (s0 : ElevatorMoveState) (e : float) (B : Z) :
  int_range (floorNum s0) -> int_range B -> floorNum s0 <> B ->
  let A := floorNum s0 in
  let s := externalTransition s0 e [B] in
  let n := Z.to_nat (Z.abs (B - A)) in
  floorNum s = A /\ floorToMove s = B /\
  (forall k, (k < n)%nat ->
     let a := internal_run k s in
     let b := internalTransition a in
     b = internal_run (S k) s /\
     floorNum a <> B /\
     Z.abs (floorNum b - floorNum a) = 1 /\
     Z.abs (B - floorNum b) = Z.abs (B - floorNum a) - 1 /\
     buzzerDuty b = 2) /\
  floorNum (internal_run n s) = B /\
  buzzerDuty (internal_run n s) = 2 /\
  idle (internal_run (S n) s) /\
  floorNum (internal_run (S n) s) = B.
Proof.
  intros HA HB Hne. cbn zeta.
  set (s := externalTransition s0 e [B]).
  assert (Hf : floorNum s = floorNum s0) by apply externalTransition_frame.
  assert (Ht : floorToMove s = B) by apply externalTransition_single.
  assert (HA' : int_range (floorNum s)) by now rewrite Hf.
  assert (HB' : int_range (floorToMove s)) by now rewrite Ht.
  rewrite <- Hf.
  set (n := Z.to_nat (Z.abs (B - floorNum s))).
  assert (Hrun : forall k, (k <= n)%nat ->
            floorNum (internal_run k s) =
              floorNum s + Z.sgn (B - floorNum s) * Z.of_nat k /\
            ((0 < k)%nat -> buzzerDuty (internal_run k s) = 2)).
  { intros k Hk. rewrite <- Ht. apply internal_run_toward; auto.
    rewrite Ht. subst n. lia. }
  assert (Hn : floorNum (internal_run n s) = B).
  { rewrite (proj1 (Hrun n (Nat.le_refl n))). subst n. lia. }
  split; [reflexivity|]. split; [exact Ht|].
  split; [|split; [exact Hn|split; [|split]]].
  - intros k Hk. cbn zeta. rewrite <- internal_run_S.
    destruct (Hrun k ltac:(lia)) as [Hk1 _].
    destruct (Hrun (S k) ltac:(lia)) as [Hk2 Hk3].
    rewrite Hk1, Hk2, Hk3 by lia. subst n.
    repeat split; lia.
  - apply (proj2 (Hrun n (Nat.le_refl n))). subst n. lia.
  - rewrite internal_run_S, internalTransition_at_target.
    + reflexivity.
    + now rewrite internal_run_floorToMove, Ht.
  - rewrite internal_run_S, internalTransition_at_target.
    + exact Hn.
    + now rewrite internal_run_floorToMove, Ht.
Qed.

Lemma C7_traversal_steps_witness :
  floorNum (internal_run 2 (externalTransition initial_state 0%float [3])) = 3 /\
  buzzerDuty (internal_run 2 (externalTransition initial_state 0%float [3])) = 2.
Proof.
  assert (H1 : int_range (floorNum initial_state)).
  { unfold int_range, INT_MIN, INT_MAX. cbn. lia. }
  assert (H3 : int_range 3).
  { unfold int_range, INT_MIN, INT_MAX. lia. }
  assert (Hne : floorNum initial_state <> 3).
  { cbn. lia. }
  destruct (C7_traversal_steps initial_state 0%float 3 H1 H3 Hne)
    as (_ & _ & _ & Hf & Hb & _).
  split; [exact Hf | exact Hb].
Defined.

(** C7 as worded fails from floor 1 to floor 2: after the one transition
    of the traversal the Mover is at floor 2 with duty [2], so it has not
    reached idle; it is idle after the second. *)
Lemma C7_counterexample :
  let s := externalTransition initial_state 0%float [2] in
  floorNum s = 1 /\ floorToMove s = 2 /\
  floorNum (internal_run 1 s) = 2 /\
  buzzerDuty (internal_run 1 s) = 2 /\
  idle (internal_run 2 s) /\
  ~ idle_after_distance initial_state 2.
Proof.
  cbn zeta. repeat split.
  intros [Hidle _]. vm_compute in Hidle. discriminate.
Qed.

(** C8, as the code has it: the predicate [idle <-> at target] holds in the
    constructed state and after every time-driven transition that fires at
    the target.  In general the duty follows the position one transition
    late: a time-driven transition ends idle exactly when the floors were
    equal before it, and the input-driven transition changes neither the
    duty nor the floor. *)
Theorem C8_idle_follows_position_one_step_late :
  idle_iff_at_target initial_state /\
  (forall s, floorNum s = floorToMove s ->
             idle_iff_at_target (internalTransition s)) /\
  (forall s, idle (internalTransition s) <-> floorNum s = floorToMove s) /\
  (forall s e bag,
     buzzerDuty (externalTransition s e bag) = buzzerDuty s /\
     floorNum (externalTransition s e bag) = floorNum s).
Proof.
  split; [|split; [|split]].
  - unfold idle_iff_at_target, idle. cbn. tauto.
  - intros s Heq. rewrite (internalTransition_at_target s Heq).
    unfold idle_iff_at_target, idle. cbn. tauto.
  - intros s. unfold idle, internalTransition. rewrite Z.gtb_ltb.
    destruct (Z.ltb_spec (floorNum s) (floorToMove s)) as [H1|H1].
    { cbn. split; [discriminate | lia]. }
    destruct (Z.ltb_spec (floorToMove s) (floorNum s)) as [H2|H2].
    { cbn. split; [discriminate | lia]. }
    destruct (Z.eqb_spec (floorNum s) (floorToMove s)) as [H3|H3]; [|lia].
    cbn. tauto.
  - intros s e bag. split; apply externalTransition_frame.
Qed.

(** C8 as worded fails: the predicate holds in the constructed state, a
    new target breaks it (duty [0], floors 1 and 2), and from the reachable
    state at floor 2 with target 3 and duty [2], where it holds, the
    arriving time-driven transition breaks it (floors equal, duty [2]). *)
Lemma C8_counterexample :
  let s1 := externalTransition initial_state 0%float [2] in
  let s2 := internalTransition (externalTransition initial_state 0%float [3]) in
  idle_iff_at_target initial_state /\
  reachable s1 /\ ~ idle_iff_at_target s1 /\
  reachable s2 /\ idle_iff_at_target s2 /\
  reachable (internalTransition s2) /\
  ~ idle_iff_at_target (internalTransition s2).
Proof.
  cbn zeta.
  split; [unfold idle_iff_at_target, idle; cbn; tauto|].
  split; [repeat constructor|].
  split.
  { intros [H _]. specialize (H eq_refl). vm_compute in H. discriminate. }
  split; [repeat constructor|].
  split.
  { unfold idle_iff_at_target, idle.
    split; intros H; vm_compute in H; discriminate. }
  split; [repeat constructor|].
  intros [_ H]. specialize (H eq_refl). vm_compute in H. discriminate.
Qed.

(** *** More on the Mover *)

(** One time-driven transition on floors that are C++ [int]s. *)
Lemma internalTransition_step s :
  int_range (floorNum s) -> int_range (floorToMove s) ->
  int_range (floorNum (internalTransition s)) /\
  Z.min (floorNum s) (floorToMove s) <= floorNum (internalTransition s)
    <= Z.max (floorNum s) (floorToMove s) /\
  Z.abs (floorToMove s - floorNum (internalTransition s)) =
    Z.max 0 (Z.abs (floorToMove s - floorNum s) - 1).
Proof.
  intros HA HB.
  destruct (Z.lt_trichotomy (floorNum s) (floorToMove s)) as [Hlt|[Heq|Hgt]].
  - destruct (internalTransition_up s HB HA Hlt) as [Hf _]. rewrite Hf.
    unfold int_range, INT_MIN, INT_MAX in *. lia.
  - rewrite (internalTransition_at_target s Heq).
    cbn [floorNum set_buzzerDuty].
    unfold int_range, INT_MIN, INT_MAX in *. lia.
  - destruct (internalTransition_down s HB HA ltac:(lia)) as [Hf _]. rewrite Hf.
    unfold int_range, INT_MIN, INT_MAX in *. lia.
Qed.

Lemma internal_run_distance n : forall s,
  int_range (floorNum s) -> int_range (floorToMove s) ->
  Z.min (floorNum s) (floorToMove s) <= floorNum (internal_run n s)
    <= Z.max (floorNum s) (floorToMove s) /\
  Z.abs (floorToMove s - floorNum (internal_run n s)) =
    Z.max 0 (Z.abs (floorToMove s - floorNum s) - Z.of_nat n).
Proof.
  induction n as [|n IH]; intros s HA HB.
  - cbn [internal_run]. lia.
  - cbn [internal_run].
    destruct (internalTransition_step s HA HB) as (HA' & Hbt & Hd).
    pose proof (proj2 (internalTransition_frame s)) as Ht.
    destruct (IH (internalTransition s) HA' ltac:(now rewrite Ht)) as [Hb' Hd'].
    rewrite Ht in *. lia.
Qed.

(** X12: The last target of a bag is the one stored; a new target changes
    neither the floor, the duty and the time advance nor the status line
    shown on the display, which keeps the old destination until the next
    move. *)
Theorem mover_last_target_wins
    (s : ElevatorMoveState) (e : float) (bag : list Z) :
  let s' := externalTransition s e bag in
  floorToMove s' = last bag (floorToMove s) /\
  floorNum s' = floorNum s /\ buzzerDuty s' = buzzerDuty s /\
  sigma s' = sigma s /\ currentStatus s' = currentStatus s.
Proof.
  cbn zeta.
  destruct (externalTransition_frame s e bag) as (H1 & H2 & H3 & H4).
  rewrite H1, H2, H3, H4. repeat split.
  rewrite externalTransition_loop.
  apply (for_each_stores on_inMoveFloor floorToMove).
  intros; apply on_inMoveFloor_frame.
Qed.

(** X13: Receiving the stored target again, any number of times, changes
    nothing at all, the diagnostic string included. *)
Theorem mover_same_target_is_no_op
    (s : ElevatorMoveState) (e : float) (n : nat) :
  externalTransition s e (repeat (floorToMove s) n) = s.
Proof.
  rewrite externalTransition_loop.
  induction n as [|n IH]; [reflexivity|].
  cbn [repeat]. rewrite for_each_cons.
  unfold on_inMoveFloor at 2. rewrite Z.eqb_refl. exact IH.
Qed.

(** X14: One time-driven transition on [int] floors never leaves the range of
    [int], never leaves the stretch between the floor and the target, and
    shortens the distance to the target by exactly one unless it is
    already zero. *)
Theorem mover_step_stays_between (s : ElevatorMoveState) :
  int_range (floorNum s) -> int_range (floorToMove s) ->
  let s' := internalTransition s in
  int_range (floorNum s') /\
  Z.min (floorNum s) (floorToMove s) <= floorNum s'
    <= Z.max (floorNum s) (floorToMove s) /\
  Z.abs (floorToMove s - floorNum s') =
    Z.max 0 (Z.abs (floorToMove s - floorNum s) - 1) /\
  floorToMove s' = floorToMove s.
Proof.
  intros HA HB. cbn zeta.
  destruct (internalTransition_step s HA HB) as (H1 & H2 & H3).
  split; [exact H1|]. split; [exact H2|]. split; [exact H3|].
  apply internalTransition_frame.
Qed.

Lemma mover_step_stays_between_witness :
  floorNum (internalTransition (mkState move_quantum 4 2 0 "" "")) = 3.
Proof.
  assert (H4 : int_range 4) by (unfold int_range, INT_MIN, INT_MAX; lia).
  assert (H2 : int_range 2) by (unfold int_range, INT_MIN, INT_MAX; lia).
  destruct (mover_step_stays_between (mkState move_quantum 4 2 0 "" "") H4 H2)
    as (_ & Hb & Hd & _).
  cbn [floorNum floorToMove] in Hb, Hd. lia.
Defined.

(** X15: Any number of time-driven transitions in a row, without input: the
    floor stays between where it started and the target, the distance left
    after [n] transitions is the starting distance less [n], or zero; from
    [n] at least the distance on the floor is the target, and from one
    more on the duty is [0] and a further transition changes nothing. *)
Theorem mover_run_settles (s : ElevatorMoveState) (n : nat) :
  int_range (floorNum s) -> int_range (floorToMove s) ->
  let d := Z.abs (floorToMove s - floorNum s) in
  let s' := internal_run n s in
  Z.min (floorNum s) (floorToMove s) <= floorNum s'
    <= Z.max (floorNum s) (floorToMove s) /\
  Z.abs (floorToMove s - floorNum s') = Z.max 0 (d - Z.of_nat n) /\
  (d <= Z.of_nat n -> floorNum s' = floorToMove s) /\
  (d < Z.of_nat n ->
     buzzerDuty s' = 0 /\ internalTransition s' = s').
Proof.
  intros HA HB. cbn zeta.
  destruct (internal_run_distance n s HA HB) as [Hb Hd].
  split; [exact Hb|]. split; [exact Hd|]. split; [lia|].
  intros Hlt. destruct n as [|n]; [lia|].
  destruct (internal_run_distance n s HA HB) as [_ Hd'].
  assert (Heq : floorNum (internal_run n s) = floorToMove (internal_run n s)).
  { rewrite internal_run_floorToMove. lia. }
  rewrite internal_run_S, (internalTransition_at_target _ Heq).
  split; [reflexivity|].
  now rewrite internalTransition_at_target by exact Heq.
Qed.

Lemma mover_run_settles_witness :
  floorNum (internal_run 5 (mkState move_quantum 4 2 0 "" "")) = 2 /\
  buzzerDuty (internal_run 5 (mkState move_quantum 4 2 0 "" "")) = 0.
Proof.
  assert (H4 : int_range 4) by (unfold int_range, INT_MIN, INT_MAX; lia).
  assert (H2 : int_range 2) by (unfold int_range, INT_MIN, INT_MAX; lia).
  destruct (mover_run_settles (mkState move_quantum 4 2 0 "" "") 5 H4 H2)
    as (_ & _ & Hf & Hz).
  split; [apply Hf | apply Hz]; cbn; lia.
Defined.

(** X16: In every state the model can be in, the buzzer duty is [0] or [2]. *)
Theorem mover_duty_is_off_or_two (s : ElevatorMoveState) :
  reachable s -> buzzerDuty s = 0 \/ buzzerDuty s = 2.
Proof.
  induction 1 as [|s _ IH|s e bag _ IH].
  - now left.
  - unfold internalTransition.
    destruct (floorNum s <? floorToMove s); [now right|].
    destruct (floorNum s >? floorToMove s); [now right|].
    destruct (floorNum s =? floorToMove s); [now left | exact IH].
  - now rewrite (proj1 (proj2 (proj2 (externalTransition_frame s e bag)))).
Qed.

Lemma mover_duty_is_off_or_two_witness :
  buzzerDuty (internalTransition (externalTransition initial_state 0%float [4])) = 0 \/
  buzzerDuty (internalTransition (externalTransition initial_state 0%float [4])) = 2.
Proof.
  exact (mover_duty_is_off_or_two _
           (reach_internal _ (reach_external _ 0%float [4] reach_initial))).
Defined.

Lemma run_snoc events ev s : run (events ++ [ev])%list s = step (run events s) ev.
Proof. unfold run. now rewrite fold_left_app. Qed.

Lemma reachable_is_run s :
  reachable s -> exists events, s = run events initial_state.
Proof.
  induction 1 as [|s _ [events IH]|s e bag _ [events IH]].
  - exists []. reflexivity.
  - exists (events ++ [Internal])%list. now rewrite run_snoc, <- IH.
  - exists (events ++ [External e bag])%list. now rewrite run_snoc, <- IH.
Qed.

(** The status line after a run from the constructed state: the floor it
    shows is that of the final state, the destination is the target stored
    after some first [k] events of the run. *)
Lemma run_display events :
  exists k : nat,
    (k <= List.length events)%nat /\
    currentStatus (run events initial_state) =
    "BSP_LCD_DrawString(0,5,DFloor:"
      ++ to_string (floorToMove (run (firstn k events) initial_state))
      ++ " CFloor:" ++ to_string (floorNum (run events initial_state))
      ++ ",LCD_WHITE)".
Proof.
  induction events as [|ev events IH] using rev_ind.
  - exists 0%nat. split; [apply Nat.le_refl | reflexivity].
  - destruct IH as (k & Hk & IH).
    assert (Hold : exists k' : nat,
              (k' <= List.length (events ++ [ev]))%nat /\
              currentStatus (run events initial_state) =
              "BSP_LCD_DrawString(0,5,DFloor:"
                ++ to_string
                     (floorToMove (run (firstn k' (events ++ [ev])) initial_state))
                ++ " CFloor:" ++ to_string (floorNum (run events initial_state))
                ++ ",LCD_WHITE)").
    { exists k. split.
      - rewrite length_app. cbn. lia.
      - rewrite firstn_app, (proj2 (Nat.sub_0_le _ _) Hk).
        cbn [firstn]. rewrite app_nil_r. exact IH. }
    rewrite run_snoc. set (s := run events initial_state) in *.
    destruct ev as [|e bag]; cbn [step].
    + unfold internalTransition.
      destruct (floorNum s <? floorToMove s) eqn:Eup;
        [|destruct (floorNum s >? floorToMove s) eqn:Edown];
        [| |destruct (floorNum s =? floorToMove s); exact Hold].
      * exists (List.length (events ++ [Internal])). split; [apply Nat.le_refl|].
        rewrite firstn_all, run_snoc. fold s. cbn [step].
        rewrite (proj2 (internalTransition_frame s)). reflexivity.
      * exists (List.length (events ++ [Internal])). split; [apply Nat.le_refl|].
        rewrite firstn_all, run_snoc. fold s. cbn [step].
        rewrite (proj2 (internalTransition_frame s)). reflexivity.
    + destruct (externalTransition_frame s e bag) as (_ & H2 & _ & H4).
      rewrite H2, H4. exact Hold.
Qed.

(** X17: In every state the model can be in, the status line for the display
    shows the floor the Mover is at.  The destination it shows is a target
    the Mover had: the state is the end of a run of transitions from the
    constructed state, and the destination is the target stored after some
    first [k] events of that run, which may be older than the target stored
    now. *)
Theorem mover_display_shows_current_floor (s : ElevatorMoveState) :
  reachable s ->
  exists (events : list event) (k : nat),
    s = run events initial_state /\
    (k <= List.length events)%nat /\
    currentStatus s =
    "BSP_LCD_DrawString(0,5,DFloor:"
      ++ to_string (floorToMove (run (firstn k events) initial_state))
      ++ " CFloor:" ++ to_string (floorNum s) ++ ",LCD_WHITE)".
Proof.
  intros Hr. destruct (reachable_is_run s Hr) as [events Hs].
  destruct (run_display events) as (k & Hk & Hline).
  exists events, k. rewrite Hs at 2 3. repeat split; assumption.
Qed.

Lemma mover_display_shows_current_floor_witness :
  exists (events : list event) (k : nat),
    externalTransition
      (internalTransition (externalTransition initial_state 0%float [3]))
      0%float [1] = run events initial_state /\
    (k <= List.length events)%nat /\
    currentStatus
      (externalTransition
         (internalTransition (externalTransition initial_state 0%float [3]))
         0%float [1]) =
    "BSP_LCD_DrawString(0,5,DFloor:"
      ++ to_string (floorToMove (run (firstn k events) initial_state))
      ++ " CFloor:" ++ to_string 2 ++ ",LCD_WHITE)".
Proof.
  exact (mover_display_shows_current_floor _
           (reach_external _ 0%float [1]
              (reach_internal _ (reach_external _ 0%float [3] reach_initial)))).
Defined.

End Mover.

(** ** The coupled model *)

Module Coupled.
Import Cxx CxxFacts elevatorSystem.

Lemma feedback_run_frame (e : float) (m : ElevatorMove.ElevatorMoveState)
    (ks : list nat) : forall d,
  let d' :=
    fold_left
      (fun st k =>
         ElevatorDoor.externalTransition st e []
           (move_to_door (ElevatorMove.internal_run k m))) ks d in
  ElevatorDoor.lightOn d' = ElevatorDoor.lightOn d /\
  ElevatorDoor.floorNumToMove d' = ElevatorDoor.floorNumToMove d /\
  ElevatorDoor.sigma d' = ElevatorDoor.sigma d.
Proof.
  induction ks as [|k ks IH]; intros d; cbn zeta.
  - repeat split.
  - cbn [fold_left]. destruct (IH (ElevatorDoor.externalTransition d e []
        (move_to_door (ElevatorMove.internal_run k m)))) as (H1 & H2 & H3).
    rewrite H1, H2, H3. repeat split.
Qed.

Lemma door_follows_mover_last e k m d :
  ElevatorDoor.floorNum (door_follows_mover e (S k) m d) =
  ElevatorMove.floorNum (ElevatorMove.internal_run k m).
Proof.
  unfold door_follows_mover. rewrite seq_S, fold_left_app. reflexivity.
Qed.

(** X18: One request served along the four couplings.  The selector holds
    floor [B], Door and Mover are at floor [A], [A <> B], both C++ [int]s.
    The selector's output closes the door, whose outputs lock the selector
    and give the Mover the target [B].  The Door then receives what the
    Mover puts out at its first [|B - A| + 1] firings: it ends at floor [B],
    still closed.  The selector's next output, floor [B] again, opens the
    door with the short quantum, and the door's output unlocks the
    selector, which still holds [B]. *)
Theorem system_serves_one_request
    (n : ElevatorNum.ElevatorNumState) (d : ElevatorDoor.ElevatorDoorState)
    (m : ElevatorMove.ElevatorMoveState) (e : float) :
  let A := ElevatorDoor.floorNum d in
  let B := ElevatorNum.floorNum n in
  ElevatorMove.floorNum m = A -> int_range A -> int_range B -> A <> B ->
  let d1 := ElevatorDoor.externalTransition d e (num_to_door n) [] in
  let n1 := ElevatorNum.externalTransition n e [] [] [] (door_to_num d1) in
  let m1 := ElevatorMove.externalTransition m e (door_to_move d1) in
  let steps := Z.to_nat (Z.abs (B - A)) in
  let d2 := door_follows_mover e (S steps) m1 d1 in
  let d3 := ElevatorDoor.externalTransition d2 e (num_to_door n1) [] in
  let n2 := ElevatorNum.externalTransition n1 e [] [] [] (door_to_num d3) in
  ElevatorDoor.lightOn d1 = true /\
  ElevatorNum.doorStatus n1 = true /\
  ElevatorMove.floorToMove m1 = B /\
  ElevatorMove.floorNum (ElevatorMove.internal_run steps m1) = B /\
  ElevatorDoor.lightOn d2 = true /\
  ElevatorDoor.floorNum d2 = B /\
  ElevatorDoor.lightOn d3 = false /\
  ElevatorDoor.timeAdvance d3 = short_quantum /\
  ElevatorNum.doorStatus n2 = false /\
  ElevatorNum.floorNum n2 = B.
Proof.
  intros A B Hm HA HB Hne. cbn zeta.
  set (d1 := ElevatorDoor.externalTransition d e (num_to_door n) []).
  assert (Hd1 : ElevatorDoor.lightOn d1 = true /\
                ElevatorDoor.floorNumToMove d1 = B).
  { subst d1. unfold ElevatorDoor.externalTransition, num_to_door,
      ElevatorNum.output, ElevatorDoor.on_inElevatorNum. cbn.
    fold A B. rewrite (proj2 (Z.eqb_neq B A)) by congruence. split; reflexivity. }
  destruct Hd1 as [Hl1 Ht1]. clearbody d1.
  set (n1 := ElevatorNum.externalTransition n e [] [] [] (door_to_num d1)).
  assert (Hn1 : ElevatorNum.doorStatus n1 = true /\ ElevatorNum.floorNum n1 = B).
  { subst n1. unfold door_to_num, ElevatorDoor.output. cbn [fst].
    rewrite Hl1. split; reflexivity. }
  destruct Hn1 as [Hn1l Hn1f]. clearbody n1.
  set (m1 := ElevatorMove.externalTransition m e (door_to_move d1)).
  assert (Hm1 : ElevatorMove.floorToMove m1 = B /\ ElevatorMove.floorNum m1 = A).
  { subst m1. unfold door_to_move, ElevatorDoor.output. cbn [snd].
    rewrite Ht1. split.
    - apply Mover.externalTransition_single.
    - rewrite <- Hm. apply Mover.externalTransition_frame. }
  destruct Hm1 as [Hm1t Hm1f]. clearbody m1.
  set (steps := Z.to_nat (Z.abs (B - A))).
  assert (Hrun : ElevatorMove.floorNum (ElevatorMove.internal_run steps m1) = B).
  { destruct (Mover.internal_run_distance steps m1) as [_ Hd].
    - now rewrite Hm1f.
    - now rewrite Hm1t.
    - rewrite Hm1t, Hm1f in Hd. subst steps. lia. }
  set (d2 := door_follows_mover e (S steps) m1 d1).
  assert (Hd2 : ElevatorDoor.lightOn d2 = true /\ ElevatorDoor.floorNum d2 = B).
  { subst d2. split.
    - unfold door_follows_mover.
      rewrite (proj1 (feedback_run_frame e m1 (seq 0 (S steps)) d1)).
      exact Hl1.
    - now rewrite door_follows_mover_last. }
  destruct Hd2 as [Hl2 Hf2]. clearbody d2.
  set (d3 := ElevatorDoor.externalTransition d2 e (num_to_door n1) []).
  assert (Hd3 : ElevatorDoor.lightOn d3 = false /\
                ElevatorDoor.sigma d3 = short_quantum).
  { subst d3. unfold ElevatorDoor.externalTransition, num_to_door,
      ElevatorNum.output, ElevatorDoor.on_inElevatorNum. cbn.
    rewrite Hn1f, Hf2, Z.eqb_refl. split; reflexivity. }
  destruct Hd3 as [Hl3 Hs3]. clearbody d3.
  unfold ElevatorDoor.timeAdvance, door_to_num, ElevatorDoor.output.
  cbn [fst]. rewrite Hl3. cbn.
  repeat split; assumption.
Qed.

Lemma system_serves_one_request_witness :
  let n := ElevatorNum.mkState short_quantum 700 100 4 false "4 " in
  let d := ElevatorDoor.initial_state in
  let m := ElevatorMove.initial_state in
  let d1 := ElevatorDoor.externalTransition d 0%float (num_to_door n) [] in
  let m1 := ElevatorMove.externalTransition m 0%float (door_to_move d1) in
  ElevatorDoor.lightOn d1 = true /\
  ElevatorMove.floorNum (ElevatorMove.internal_run 3 m1) = 4.
Proof.
  assert (H1 : int_range 1) by (unfold int_range, INT_MIN, INT_MAX; lia).
  assert (H4 : int_range 4) by (unfold int_range, INT_MIN, INT_MAX; lia).
  assert (Hne : 1 <> 4) by lia.
  destruct (system_serves_one_request
              (ElevatorNum.mkState short_quantum 700 100 4 false "4 ")
              ElevatorDoor.initial_state ElevatorMove.initial_state 0%float
              eq_refl H1 H4 Hne) as (Ha & _ & _ & Hb & _).
  split; [exact Ha | exact Hb].
Defined.

End Coupled.

(** ** The models run on small inputs *)

Module Scenarios.
Import Cxx.

Example to_string_digits :
  to_string 0 = "0" /\ to_string 105 = "105" /\ to_string (-12) = "-12".
Proof. repeat split. Qed.

Example wrap_int_at_the_ends :
  wrap_int (INT_MAX + 1) = INT_MIN /\ wrap_int (INT_MIN - 1) = INT_MAX /\
  wrap_int 4 = 4.
Proof. repeat split. Qed.

Example mover_constructed :
  ElevatorMove.output ElevatorMove.initial_state =
  (1, 0, "BSP_LCD_DrawString(0,5,DFloor:1 CFloor:1,LCD_WHITE)").
Proof. reflexivity. Qed.

Example mover_one_floor_up :
  ElevatorMove.output
    (ElevatorMove.internalTransition
       (ElevatorMove.externalTransition ElevatorMove.initial_state 0%float [2])) =
  (2, 2, "BSP_LCD_DrawString(0,5,DFloor:2 CFloor:2,LCD_WHITE)").
Proof. reflexivity. Qed.

Example mover_two_floors_down :
  let s := ElevatorMove.mkState move_quantum 4 4 0 "" "" in
  map (fun n => ElevatorMove.output
                  (ElevatorMove.internal_run n
                     (ElevatorMove.externalTransition s 0%float [2])))
      [1; 2; 3]%nat =
  [ (3, 2, "BSP_LCD_DrawString(0,5,DFloor:2 CFloor:3,LCD_WHITE)");
    (2, 2, "BSP_LCD_DrawString(0,5,DFloor:2 CFloor:2,LCD_WHITE)");
    (2, 0, "BSP_LCD_DrawString(0,5,DFloor:2 CFloor:2,LCD_WHITE)") ].
Proof. reflexivity. Qed.

Example door_closes_on_other_floor :
  ElevatorDoor.output
    (ElevatorDoor.externalTransition ElevatorDoor.initial_state 0%float [2] []) =
  (true, 2).
Proof. reflexivity. Qed.

Example door_stays_open_on_same_floor :
  ElevatorDoor.output
    (ElevatorDoor.externalTransition ElevatorDoor.initial_state 0%float [1] [3]) =
  (false, 1).
Proof. reflexivity. Qed.

Example selector_logs_rejected_pulses :
  let s := ElevatorNum.mkState short_quantum 700 900 1 true "" in
  ElevatorNum.currentStatus
    (ElevatorNum.externalTransition s 0%float [false; true] [] [] []) = "DC DC ".
Proof. reflexivity. Qed.

Example selector_picks_floor_four :
  let s := ElevatorNum.mkState short_quantum 601 399 1 false "" in
  let s' := ElevatorNum.externalTransition s 0%float [false] [] [] [] in
  ElevatorNum.output s' = 4 /\ ElevatorNum.currentStatus s' = "4 ".
Proof. split; reflexivity. Qed.

Example selector_ignores_the_border :
  let s := ElevatorNum.mkState short_quantum 600 900 1 false "" in
  ElevatorNum.output (ElevatorNum.externalTransition s 0%float [false] [] [] []) = 1.
Proof. reflexivity. Qed.

End Scenarios.
